(** * craft.py: recursive recipe resolution and quantity aggregation

    A shallow embedding of [src/craft.py] (the Pax Dei crafting bot): the
    failure-multiplier model, the recursive raw-quantity aggregator
    [compute_raw], the breakdown builder [build_breakdown] and the report
    assembler [generate_breakdown], followed by the properties the
    specification states about them.

    Conventions.
    - Python [int] is [Z]; Python [float] is IEEE 754 binary64, modelled by
      the exact value of the double (an integer multiple of [2^-1074]) with
      every operation computed exactly and then rounded to nearest, ties to
      even.  The model is checked against the kernel's primitive binary64
      operations on the constants the program uses.
    - Python [str] is a list of Unicode code points, so that [len] and
      slicing count what Python counts.
    - Python [dict] is an insertion-ordered association list with unique keys.
    - Exceptions are an error monad; the recursion depth is bounded by a
      [fuel] argument whose exhaustion is Python's [RecursionError].
    - The three memoised collaborators ([find_recipe_url], [scrape_recipe],
      [get_max_stack]) perform network requests; they are taken as
      deterministic oracles, section variables of the embedding. *)

From Stdlib Require Import ZArith List String Ascii Bool Lia Permutation.
From Stdlib Require Import DecimalString Floats.
Import ListNotations.

Set Warnings "-inexact-float".
Local Open Scope Z_scope.

(* ################################################################## *)
(** * The embedding *)

(* ================================================================== *)
(** ** Python strings *)

(** A Python string: its code points. *)
Definition pystr : Type := list N.

(** UTF-8 decoding of the bytes of a Rocq string literal. *)
Fixpoint decode_from (pending : nat) (acc : N) (bs : list N) : pystr :=
  match bs with
  | [] => []
  | b :: bs' =>
      match pending with
      | O =>
          if (b <? 128)%N then b :: decode_from 0 0 bs'
          else if (b <? 224)%N then decode_from 1 (b - 192) bs'
          else if (b <? 240)%N then decode_from 2 (b - 224) bs'
          else decode_from 3 (b - 240) bs'
      | S p =>
          let acc' := (acc * 64 + (b - 128))%N in
          match p with
          | O => acc' :: decode_from 0 0 bs'
          | _ => decode_from p acc' bs'
          end
      end
  end.

Definition str (s : string) : pystr :=
  decode_from 0 0 (map N_of_ascii (list_ascii_of_string s)).

(** [len(s)] and [s[:n]]. *)
Definition str_len (s : pystr) : Z := Z.of_nat (List.length s).
Definition str_slice_to (n : nat) (s : pystr) : pystr := firstn n s.

(** [s == t]. *)
Fixpoint str_eqb (s t : pystr) : bool :=
  match s, t with
  | [], [] => true
  | c :: s', d :: t' => (c =? d)%N && str_eqb s' t'
  | _, _ => false
  end.

(** [s < t]: lexicographic on code points, as Python compares strings. *)
Fixpoint str_ltb (s t : pystr) : bool :=
  match s, t with
  | _, [] => false
  | [], _ :: _ => true
  | c :: s', d :: t' => (c <? d)%N || ((c =? d)%N && str_ltb s' t')
  end.

(** [not s]: only the empty string is falsy. *)
Definition str_falsy (s : pystr) : bool :=
  match s with [] => true | _ => false end.

(** [str(n)] for an [int]: decimal digits, a leading minus when negative. *)
Definition str_of_int (n : Z) : pystr :=
  str (NilZero.string_of_int (Z.to_int n)).

(** [s.replace(c, d)] for single characters. *)
Definition str_replace (c d : N) (s : pystr) : pystr :=
  map (fun x => if (x =? c)%N then d else x) s.

(** [sep.join(parts)]. *)
Fixpoint str_join (sep : pystr) (parts : list pystr) : pystr :=
  match parts with
  | [] => []
  | [p] => p
  | p :: ps => p ++ sep ++ str_join sep ps
  end.

(** Does [t] start with [s]? *)
Fixpoint str_prefixb (s t : pystr) : bool :=
  match s, t with
  | [], _ => true
  | c :: s', d :: t' => (c =? d)%N && str_prefixb s' t'
  | _ :: _, [] => false
  end.

(** [s in t]. *)
Fixpoint str_contains (s t : pystr) : bool :=
  str_prefixb s t || match t with [] => false | _ :: t' => str_contains s t' end.

Definition str_nl : pystr := [10%N].

(* ================================================================== *)
(** ** Exceptions *)

Inductive pyerr : Set :=
| ZeroDivisionError
| OverflowError
| ValueError
| RecursionError.

Inductive exn (A : Type) : Type :=
| Ok (a : A)
| Raise (e : pyerr).
Arguments Ok {A} a.
Arguments Raise {A} e.

Definition bind {A B : Type} (c : exn A) (k : A -> exn B) : exn B :=
  match c with
  | Ok a => k a
  | Raise e => Raise e
  end.

Notation "x <- c ;; k" := (bind c (fun x => k))
  (at level 61, c at next level, right associativity).

(** A [for] loop over [l] that threads an accumulator and stops at the
    first exception. *)
Fixpoint foldM {A B : Type} (f : A -> B -> exn A) (l : list B) (a : A) : exn A :=
  match l with
  | [] => Ok a
  | b :: l' => a' <- f a b ;; foldM f l' a'
  end.

(** A [for] loop that collects one result per element. *)
Fixpoint mapM {A B : Type} (f : A -> exn B) (l : list A) : exn (list B) :=
  match l with
  | [] => Ok []
  | a :: l' => b <- f a ;; bs <- mapM f l' ;; Ok (b :: bs)
  end.

(* ================================================================== *)
(** ** IEEE 754 binary64 *)

(** Every finite double is an integer multiple of [2^-1074] (the smallest
    subnormal); [Finite u] is the double whose exact value is
    [u * 2^-1074].  The sign of a zero is not kept: no operation of the
    program observes it (division by a zero raises in Python, and no float
    is ever printed). *)
Inductive pyfloat : Set :=
| Finite (u : Z)
| PosInf
| NegInf
| NaN.

(** Units of [2^-1074] in [1.0]. *)
Definition scale : Z := 2 ^ 1074.

(** Largest finite double, [(2^53 - 1) * 2^971], in units. *)
Definition max_units : Z := (2 ^ 53 - 1) * 2 ^ 2045.

(** Nearest integer to [a / b], ties to even ([0 < b]). *)
Definition rne (a b : Z) : Z :=
  let '(q, r) := Z.div_eucl a b in
  if 2 * r <? b then q
  else if b <? 2 * r then q + 1
  else if Z.even q then q else q + 1.

(** Exponent of the spacing of doubles around [a / b] units: with
    [2^l <= |a / b| < 2^(l+1)] the spacing is [2^(l-52)] units, and one
    unit below [2^53] units (subnormals and the first normal binade).
    [l] is found from the bit lengths of [a] and [b]. *)
Definition binade (a b : Z) : Z :=
  let d := Z.log2 (Z.abs a) - Z.log2 b in
  let l := if b * 2 ^ d <=? Z.abs a then d else d - 1 in
  Z.max 0 (l - 52).

(** [a / b] units rounded to a 53-bit significand, exponent unbounded. *)
Definition round_units (a b : Z) : Z :=
  let k := binade a b in rne a (b * 2 ^ k) * 2 ^ k.

(** Round to nearest even, overflow to an infinity ([0 < b]). *)
Definition round64 (a b : Z) : pyfloat :=
  let u := round_units a b in
  if max_units <? u then PosInf
  else if u <? - max_units then NegInf
  else Finite u.

Definition fsgn (x : pyfloat) : Z :=
  match x with
  | Finite u => Z.sgn u
  | PosInf => 1
  | NegInf => -1
  | NaN => 0
  end.

Definition inf_of_sign (s : Z) : pyfloat :=
  if 0 <? s then PosInf else if s <? 0 then NegInf else NaN.

Definition fneg (x : pyfloat) : pyfloat :=
  match x with
  | Finite u => Finite (- u)
  | PosInf => NegInf
  | NegInf => PosInf
  | NaN => NaN
  end.

Definition fmul (x y : pyfloat) : pyfloat :=
  match x, y with
  | NaN, _ | _, NaN => NaN
  | Finite u, Finite v => round64 (u * v) scale
  | _, _ => inf_of_sign (fsgn x * fsgn y)
  end.

(** IEEE division; Python raises before dividing by a zero, so the zero
    divisor cases are there for totality only. *)
Definition fdiv (x y : pyfloat) : pyfloat :=
  match x, y with
  | NaN, _ | _, NaN => NaN
  | Finite u, Finite v =>
      if v =? 0 then inf_of_sign (Z.sgn u)
      else round64 (Z.sgn v * u * scale) (Z.abs v)
  | Finite _, _ => Finite 0
  | _, Finite v => inf_of_sign (fsgn x * (if v <? 0 then -1 else 1))
  | _, _ => NaN
  end.

Definition fadd (x y : pyfloat) : pyfloat :=
  match x, y with
  | NaN, _ | _, NaN => NaN
  | Finite u, Finite v => round64 (u + v) 1
  | Finite _, _ => y
  | _, Finite _ => x
  | PosInf, PosInf => PosInf
  | NegInf, NegInf => NegInf
  | _, _ => NaN
  end.

Definition fsub (x y : pyfloat) : pyfloat := fadd x (fneg y).

(** [x <= y] on doubles; false when either is a NaN. *)
Definition fleb (x y : pyfloat) : bool :=
  match x, y with
  | NaN, _ | _, NaN => false
  | NegInf, _ | _, PosInf => true
  | _, NegInf | PosInf, _ => false
  | Finite u, Finite v => u <=? v
  end.

(** A decimal literal [n / d] ([0.08] is [8 / 100]): the nearest double. *)
Definition literal (n d : Z) : pyfloat := round64 (n * scale) d.

(** The value of a primitive double, for comparing the model with the
    kernel's binary64 arithmetic. *)
Definition of_prim (x : PrimFloat.float) : pyfloat :=
  match Prim2SF x with
  | S754_zero _ => Finite 0
  | S754_infinity s => if s then NegInf else PosInf
  | S754_nan => NaN
  | S754_finite s m e =>
      let u := Z.pos m * 2 ^ (e + 1074) in Finite (if s then - u else u)
  end.

(** [x <= y] and [0 <= x] on doubles, as propositions. *)
Definition fle (x y : pyfloat) : Prop := fleb x y = true.
Definition fnonneg (x : pyfloat) : Prop := fleb (Finite 0) x = true.

(* ================================================================== *)
(** ** Python numbers and operators *)

Inductive num : Set :=
| Int (n : Z)
| Float (x : pyfloat).

(** [float(n)]: correctly rounded, [OverflowError] when too large. *)
Definition to_float (n : Z) : exn pyfloat :=
  match round64 (n * scale) 1 with
  | Finite u => Ok (Finite u)
  | _ => Raise OverflowError
  end.

Definition as_float (x : num) : exn pyfloat :=
  match x with
  | Int n => to_float n
  | Float f => Ok f
  end.

Definition is_zero (x : pyfloat) : bool :=
  match x with
  | Finite u => u =? 0
  | _ => false
  end.

(** [x / y] (true division).  On two ints the exact quotient is rounded
    once. *)
Definition py_truediv (x y : num) : exn num :=
  match x, y with
  | Int a, Int b =>
      if b =? 0 then Raise ZeroDivisionError
      else match round64 (Z.sgn b * a * scale) (Z.abs b) with
           | Finite u => Ok (Float (Finite u))
           | _ => Raise OverflowError
           end
  | _, _ =>
      a <- as_float x ;;
      b <- as_float y ;;
      if is_zero b then Raise ZeroDivisionError else Ok (Float (fdiv a b))
  end.

Definition py_mul (x y : num) : exn num :=
  match x, y with
  | Int a, Int b => Ok (Int (a * b))
  | _, _ => a <- as_float x ;; b <- as_float y ;; Ok (Float (fmul a b))
  end.

Definition py_add (x y : num) : exn num :=
  match x, y with
  | Int a, Int b => Ok (Int (a + b))
  | _, _ => a <- as_float x ;; b <- as_float y ;; Ok (Float (fadd a b))
  end.

Definition py_sub (x y : num) : exn num :=
  match x, y with
  | Int a, Int b => Ok (Int (a - b))
  | _, _ => a <- as_float x ;; b <- as_float y ;; Ok (Float (fsub a b))
  end.

(** [math.ceil(x)]. *)
Definition py_ceil (x : num) : exn Z :=
  match x with
  | Int n => Ok n
  | Float (Finite u) => Ok (- ((- u) / scale))
  | Float NaN => Raise ValueError
  | Float _ => Raise OverflowError
  end.

(** [int(x)]: truncation toward zero. *)
Definition py_int (x : num) : exn Z :=
  match x with
  | Int n => Ok n
  | Float (Finite u) => Ok (Z.quot u scale)
  | Float NaN => Raise ValueError
  | Float _ => Raise OverflowError
  end.

(** [ceil(x / y)], the expression the program uses for crafts, slots and
    chests. *)
Definition ceil_div (x y : num) : exn Z :=
  q <- py_truediv x y ;; py_ceil q.

(** [1.0], [20], ... as doubles: exact for small integers. *)
Definition fint (n : Z) : pyfloat := Finite (n * scale).

(** [round(x)]: the nearest integer, ties to even. *)
Definition py_round (x : num) : exn Z :=
  match x with
  | Int n => Ok n
  | Float (Finite u) => Ok (rne u scale)
  | Float NaN => Raise ValueError
  | Float _ => Raise OverflowError
  end.

(* ================================================================== *)
(** ** Python dicts *)

(** Insertion-ordered association list; [dict_set] keeps keys unique. *)
Definition dict (V : Type) : Type := list (pystr * V).

(** [k in d] / [d[k]]. *)
Fixpoint dict_get {V} (d : dict V) (k : pystr) : option V :=
  match d with
  | [] => None
  | (k', v) :: d' => if str_eqb k' k then Some v else dict_get d' k
  end.

(** [d.get(k, default)]. *)
Definition dict_get_or {V} (d : dict V) (k : pystr) (default : V) : V :=
  match dict_get d k with
  | Some v => v
  | None => default
  end.

(** [d[k] = v]: overwrite in place, or append a new key. *)
Fixpoint dict_set {V} (d : dict V) (k : pystr) (v : V) : dict V :=
  match d with
  | [] => [(k, v)]
  | (k', v') :: d' =>
      if str_eqb k' k then (k', v) :: d' else (k', v') :: dict_set d' k v
  end.

Definition dict_keys {V} (d : dict V) : list pystr := map fst d.

Definition mem (k : pystr) (l : list pystr) : bool :=
  existsb (str_eqb k) l.

(** [set(a) | set(b)] as a duplicate-free list (a Python set has no
    specified order; it is only iterated to build a dict or sorted). *)
Fixpoint set_of (l : list pystr) : list pystr :=
  match l with
  | [] => []
  | k :: l' => if mem k l' then set_of l' else k :: set_of l'
  end.

Definition set_union (a b : list pystr) : list pystr := set_of (a ++ b).

(** [sorted(l, key=...)]: a stable insertion sort on the string keys. *)
Fixpoint insert_sorted {A} (key : A -> pystr) (x : A) (l : list A) : list A :=
  match l with
  | [] => [x]
  | y :: l' =>
      if str_ltb (key y) (key x) then y :: insert_sorted key x l'
      else x :: y :: l'
  end.

Definition sorted {A} (key : A -> pystr) (l : list A) : list A :=
  fold_right (insert_sorted key) [] l.

(* ================================================================== *)
(** ** Recipes *)

(** The value stored under an ingredient name by [scrape_recipe]. *)
Module Ingredient.
Record t : Type := make { qty_per : Z; slug : pystr; link : pystr }.
End Ingredient.

(** The dict returned by [scrape_recipe]. *)
Module Recipe.
Record t : Type := make {
  name : pystr;
  skill : pystr;
  diff : Z;
  ingredients : dict Ingredient.t;
  yield_per : Z;
  url : pystr
}.
End Recipe.

(* ================================================================== *)
(** ** Failure logic *)

Definition very_easy : pyfloat := fdiv (fint 1) (fsub (fint 1) (literal 8 100)).
Definition easy : pyfloat := fdiv (fint 1) (fsub (fint 1) (literal 15 100)).
Definition moderate : pyfloat := fdiv (fint 1) (fsub (fint 1) (literal 30 100)).
Definition hard : pyfloat := fdiv (fint 1) (fsub (fint 1) (literal 50 100)).

Definition get_fail_multiplier (diff adjusted_level : Z) : pyfloat :=
  let delta := diff - adjusted_level in
  if delta <=? 0 then very_easy
  else if delta <=? 3 then easy
  else if delta <=? 6 then moderate
  else hard.

(* ================================================================== *)
(** ** The program *)

Section Program.

(** The memoised collaborators, as deterministic oracles. *)
Variable find_recipe_url : pystr -> option pystr.
Variable scrape_recipe : pystr -> option Recipe.t.
Variable get_max_stack : pystr -> Z.

(** [str.title], a method of Python's string type. *)
Variable title : pystr -> pystr.

(** The two lookups that open [compute_raw] and [build_breakdown]: a
    missing or empty URL, or a failed scrape, is "no recipe". *)
Definition lookup (name : pystr) : option Recipe.t :=
  match find_recipe_url name with
  | None => None
  | Some url => if str_falsy url then None else scrape_recipe url
  end.

(** [for r_slug, q in sub_raw.items(): raw[r_slug] = raw.get(r_slug, 0) + q] *)
Definition accumulate (raw sub_raw : dict num) : exn (dict num) :=
  foldM (fun raw '(r_slug, q) =>
           v <- py_add (dict_get_or raw r_slug (Int 0)) q ;;
           Ok (dict_set raw r_slug v))
        sub_raw raw.

Fixpoint compute_raw (fuel : nat) (name slug : pystr) (needed_qty : num)
    (level : Z) (apply_fail : bool) : exn (dict num) :=
  match fuel with
  | O => Raise RecursionError
  | S fuel' =>
      match lookup name with
      | None => Ok [(slug, needed_qty)]
      | Some recipe =>
          let adj_lvl := if apply_fail then level + 1 else 999 in
          let mult :=
            if apply_fail
            then Float (get_fail_multiplier (Recipe.diff recipe) adj_lvl)
            else Float (fint 1) in
          n <- ceil_div needed_qty (Int (Recipe.yield_per recipe)) ;;
          crafts <- py_mul (Int n) mult ;;
          foldM (fun raw '(sub_name, info) =>
                   sub_needed <- py_mul (Int (Ingredient.qty_per info)) crafts ;;
                   sub_raw <- compute_raw fuel' sub_name (Ingredient.slug info)
                                sub_needed level apply_fail ;;
                   accumulate raw sub_raw)
                (Recipe.ingredients recipe) []
      end
  end.

(** The multiplier line of [compute_raw]. *)
Definition multiplier (recipe : Recipe.t) (level : Z) (apply_fail : bool) : num :=
  if apply_fail
  then Float (get_fail_multiplier (Recipe.diff recipe) (level + 1))
  else Float (fint 1).

(** One ingredient's turn in the loop of [compute_raw]. *)
Definition ingredient_step (fuel : nat) (crafts : num) (level : Z)
    (apply_fail : bool) (raw : dict num) (entry : pystr * Ingredient.t)
    : exn (dict num) :=
  sub_needed <- py_mul (Int (Ingredient.qty_per (snd entry))) crafts ;;
  sub_raw <- compute_raw fuel (fst entry) (Ingredient.slug (snd entry))
               sub_needed level apply_fail ;;
  accumulate raw sub_raw.

(** *** The breakdown builder *)

(** [build_breakdown] receives the dict [stacks_cache] by reference; the
    dict is threaded as state, so that whatever the callee does to it is
    what the caller sees afterwards, also when an exception escapes. *)
Definition stateful (A : Type) : Type := dict Z -> exn A * dict Z.

Definition sret {A} (a : A) : stateful A := fun c => (Ok a, c).

Definition sbind {A B} (m : stateful A) (k : A -> stateful B) : stateful B :=
  fun c =>
    match m c with
    | (Ok a, c') => k a c'
    | (Raise e, c') => (Raise e, c')
    end.

Definition lift {A} (r : exn A) : stateful A := fun c => (r, c).

Notation "x <~ m ;; k" := (sbind m (fun x => k))
  (at level 61, m at next level, right associativity).

(** [stacks_cache.get(k, default)]; Python evaluates [default] first. *)
Definition cache_get (k : pystr) (default : Z) : stateful Z :=
  fun c => (Ok (dict_get_or c k default), c).

Fixpoint sfold {A B} (f : A -> B -> stateful A) (l : list B) (a : A) : stateful A :=
  match l with
  | [] => sret a
  | b :: l' => a' <~ f a b ;; sfold f l' a'
  end.

Definition notes : pystr :=
  str_nl ++ str "**Subtotal/Bonus Notes**" ++ str_nl ++ str_nl.

Definition table_header : pystr :=
  str "| Raw Resource | Qty | Max Stack | Slots | Method | Link |" ++ str_nl ++
  str "|--------------|-----|-----------|-------|--------|------|" ++ str_nl.

(** [needed_qty] is an [int] on every call the program makes: the root
    call passes the requested quantity and each recursive call passes
    [qty_per * crafts], a product of ints. *)
Fixpoint build_breakdown (fuel : nat) (name : pystr) (needed_qty level : Z)
    : stateful pystr :=
  match fuel with
  | O => lift (Raise RecursionError)
  | S fuel' =>
      match lookup name with
      | None => sret []
      | Some recipe =>
          crafts <~ lift (ceil_div (Int needed_qty) (Int (Recipe.yield_per recipe))) ;;
          let bd :=
            str "### 1. [" ++ Recipe.name recipe ++ str "](" ++ Recipe.url recipe
            ++ str ")" ++ str_nl in
          let bd :=
            bd ++ str "- **Needed**: `" ++ str_of_int needed_qty ++ str "`" ++ str_nl in
          let inputs :=
            str_join (str ", ")
              (map (fun '(sub, info) =>
                      str_of_int (Ingredient.qty_per info) ++ str "x " ++ sub)
                   (Recipe.ingredients recipe)) in
          let bd :=
            bd ++ str "- **Batch Craft**: `" ++ inputs ++ str " → "
            ++ str_of_int (Recipe.yield_per recipe) ++ str "x " ++ Recipe.name recipe
            ++ str "`" ++ str_nl in
          let bd :=
            bd ++ str "- **Crafts Required**: `ceil(" ++ str_of_int needed_qty
            ++ str " / " ++ str_of_int (Recipe.yield_per recipe) ++ str ") = "
            ++ str_of_int crafts ++ str "`" ++ str_nl ++ str_nl in
          out <~
            sfold (fun '(bd, table) '(sub_name, info) =>
                     let sub_needed := Ingredient.qty_per info * crafts in
                     max_st <~ cache_get (Ingredient.slug info)
                                 (get_max_stack (Ingredient.slug info)) ;;
                     slots <~ lift (ceil_div (Int sub_needed) (Int max_st)) ;;
                     let method :=
                       match find_recipe_url sub_name with
                       | None => str "gather"
                       | Some u => if str_falsy u then str "gather" else str "craft"
                       end in
                     let table :=
                       table ++ str "| [" ++ sub_name ++ str "](" ++ Ingredient.link info
                       ++ str ") | `" ++ str_of_int sub_needed ++ str "` | "
                       ++ str_of_int max_st ++ str " | `" ++ str_of_int slots
                       ++ str "` | " ++ method ++ str " | [" ++ sub_name ++ str "]("
                       ++ Ingredient.link info ++ str ") |" ++ str_nl in
                     sub <~ build_breakdown fuel' sub_name sub_needed level ;;
                     sret (bd ++ sub ++ notes, table))
                  (sorted fst (Recipe.ingredients recipe))
                  (bd, table_header) ;;
          let '(bd, table) := out in
          sret (bd ++ table ++ notes)
      end
  end.

(** *** The report assembler *)

Definition BASE_URL : pystr := str "https://paxdei.gaming.tools".

(** [sum(ceil(q / stacks.get(s, 50)) for s, q in raw.items())] *)
Definition slot_total (stacks : dict Z) (raw : dict num) : exn Z :=
  foldM (fun total '(s, q) =>
           n <- ceil_div q (Int (dict_get_or stacks s 50)) ;;
           Ok (total + n))
        raw 0.

(** [int((slots_adj / slots_orig - 1) * 100) if slots_orig else 0] *)
Definition pct_float (slots_adj slots_orig : Z) : exn num :=
  r <- py_truediv (Int slots_adj) (Int slots_orig) ;;
  d <- py_sub r (Int 1) ;;
  py_mul d (Int 100).

Definition pct_overhead (slots_adj slots_orig : Z) : exn Z :=
  if slots_orig =? 0 then Ok 0
  else x <- pct_float slots_adj slots_orig ;; py_int x.

(** [{s: get_max_stack(s) for s in set(orig) | set(adj)}] *)
Definition stack_table (orig adj : dict num) : dict Z :=
  map (fun s => (s, get_max_stack s))
      (set_union (dict_keys orig) (dict_keys adj)).

(** [breakdown[:1900] + "..." if len(breakdown) > 1900 else breakdown] *)
Definition chat_of (breakdown : pystr) : pystr :=
  if 1900 <? str_len breakdown
  then str_slice_to 1900 breakdown ++ str "..."
  else breakdown.

Definition final_tbl_header : pystr :=
  str "| Raw Resource | Qty (Orig) | Qty (Adj) | Slots (Adj) |" ++ str_nl ++
  str "|-----|------------|-----------|-------------|" ++ str_nl.

Definition footnote : pystr :=
  str "> **Bonus**: Adjusted for failure rates (Very Easy:8%, Easy:15%, Moderate:30%, Hard:50%)  "
  ++ str_nl ++ str "> **All math in `code`**  "
  ++ str_nl ++ str "> **Verified from paxdei.gaming.tools**" ++ str_nl.

Definition generate_breakdown (fuel : nat) (item_name : pystr)
    (quantity level : Z) : exn (pystr * pystr) :=
  orig <- compute_raw fuel item_name [] (Int quantity) level false ;;
  adj <- compute_raw fuel item_name [] (Int quantity) level true ;;
  let stacks := stack_table orig adj in
  let '(built, stacks) := build_breakdown fuel item_name quantity level stacks in
  breakdown <- built ;;
  slots_orig <- slot_total stacks orig ;;
  slots_adj <- slot_total stacks adj ;;
  chests_adj <- ceil_div (Int slots_adj) (Int 20) ;;
  final_tbl <-
    foldM (fun final_tbl slug =>
             qo <- py_int (dict_get_or orig slug (Int 0)) ;;
             qa <- py_int (dict_get_or adj slug (Int 0)) ;;
             sa <- ceil_div (Int qa) (Int (dict_get_or stacks slug 50)) ;;
             let name := title (str_replace 95 32 slug) in
             Ok (final_tbl ++ str "| [" ++ name ++ str "](" ++ BASE_URL
                 ++ str "/items/" ++ slug ++ str ") | `" ++ str_of_int qo
                 ++ str "` | `" ++ str_of_int qa ++ str "` | `" ++ str_of_int sa
                 ++ str "` |" ++ str_nl))
          (sorted (fun s => s) (set_union (dict_keys orig) (dict_keys adj)))
          final_tbl_header ;;
  pct <- pct_overhead slots_adj slots_orig ;;
  let final_tbl :=
    final_tbl ++ str "**Total Adj: " ++ str_of_int slots_adj ++ str " slots** (+"
    ++ str_of_int pct ++ str "%)" ++ str_nl in
  chests <- ceil_div (Int slots_orig) (Int 20) ;;
  let md :=
    str "**" ++ title item_name ++ str " – Full Recursive Breakdown for "
    ++ str_of_int quantity ++ str "x (Level " ++ str_of_int level
    ++ str " +1 Blessing)**" ++ str_nl
    ++ str_nl
    ++ str "## Step-by-Step Batch & Stack Calculation" ++ str_nl
    ++ breakdown ++ str_nl
    ++ str_nl
    ++ str "## Final Gather Totals & Storage Needs" ++ str_nl
    ++ final_tbl ++ str_nl
    ++ str_nl
    ++ str "**Total Raw Slots**: `" ++ str_of_int slots_orig ++ str "` → **~"
    ++ str_of_int chests ++ str " Chests**" ++ str_nl
    ++ str_nl
    ++ footnote in
  Ok (md, chat_of breakdown).

End Program.

Arguments lookup find_recipe_url scrape_recipe name : simpl never.
Arguments scale : simpl never.
Arguments max_units : simpl never.
Arguments round64 a b : simpl never.
Arguments py_truediv x y : simpl never.
Arguments py_mul x y : simpl never.
Arguments py_add x y : simpl never.
Arguments py_sub x y : simpl never.
Arguments py_ceil x : simpl never.
Arguments py_int x : simpl never.
Arguments ceil_div x y : simpl never.
Arguments to_float n : simpl never.
Arguments get_fail_multiplier diff adjusted_level : simpl never.

(* ================================================================== *)
(** ** Definitions for the specification's statements *)

(** The tier table of the specification, read row by row on
    [delta = difficulty - effectiveLevel]. *)
Definition tier_multiplier (delta : Z) : pyfloat :=
  if delta <=? 0 then fdiv (fint 1) (literal 92 100)
  else if (0 <? delta) && (delta <=? 3) then fdiv (fint 1) (literal 85 100)
  else if (3 <? delta) && (delta <=? 6) then fdiv (fint 1) (literal 70 100)
  else fdiv (fint 1) (literal 50 100).

(** The overhead as the specification words it:
    [round((slotsAdjusted / slotsOriginal - 1) * 100)], and 0 when
    [slotsOriginal] is 0. *)
Definition pct_rounded (slots_adj slots_orig : Z) : exn Z :=
  if slots_orig =? 0 then Ok 0
  else x <- pct_float slots_adj slots_orig ;; py_round x.

(** [x <= y] between two numbers of the same kind. *)
Definition num_le (x y : num) : Prop :=
  match x, y with
  | Int a, Int b => a <= b
  | Float f, Float g => fle f g
  | _, _ => False
  end.

Definition num_nonneg (x : num) : Prop :=
  match x with
  | Int a => 0 <= a
  | Float f => fnonneg f
  end.

Definition entry_le (e1 e2 : pystr * num) : Prop :=
  fst e1 = fst e2 /\ num_le (snd e1) (snd e2) /\ num_nonneg (snd e1).

(** Same keys in the same order, each ideal value non-negative and below
    the adjusted one. *)
Definition dict_le (d1 d2 : dict num) : Prop := Forall2 entry_le d1 d2.

(** The invariant of the data model: a recipe yields at least one unit
    and needs at least one unit of every ingredient. *)
Definition valid_recipes (scrape_recipe : pystr -> option Recipe.t) : Prop :=
  forall url recipe,
    scrape_recipe url = Some recipe ->
    1 <= Recipe.yield_per recipe
    /\ Forall (fun entry => 1 <= Ingredient.qty_per (snd entry))
         (Recipe.ingredients recipe).

(** The same recipe with its ingredient list reordered. *)
Definition reordered (r r' : Recipe.t) : Prop :=
  Recipe.name r = Recipe.name r'
  /\ Recipe.skill r = Recipe.skill r'
  /\ Recipe.diff r = Recipe.diff r'
  /\ Recipe.yield_per r = Recipe.yield_per r'
  /\ Recipe.url r = Recipe.url r'
  /\ Permutation (Recipe.ingredients r) (Recipe.ingredients r').

(** Two recipe stores that differ only in the order of ingredient lists. *)
Definition recipes_reordered (scrape scrape' : pystr -> option Recipe.t) : Prop :=
  forall url,
    match scrape url, scrape' url with
    | Some r, Some r' => reordered r r'
    | None, None => True
    | _, _ => False
    end.

(** A stateful computation leaves the cache as it found it. *)
Definition preserves_cache {A} (m : stateful A) : Prop :=
  forall c : dict Z, snd (m c) = c.

(** Every value is a float. *)
Definition floats (d : list (pystr * num)) : Prop :=
  Forall (fun e => exists f, snd e = Float f) d.

(** The value of a finite double, in units of [2^-1074].  (The int
    quantity of a root without recipe counts for nothing here: no addition
    touches it.) *)
Definition units (v : num) : Z :=
  match v with
  | Float (Finite u) => u
  | _ => 0
  end.

(** The exact sum of the contributions to slug [k]. *)
Fixpoint total (k : pystr) (leaves : list (pystr * num)) : Z :=
  match leaves with
  | [] => 0
  | (k', v) :: leaves' =>
      (if str_eqb k' k then units v else 0) + total k leaves'
  end.

(** A double that holds a non-negative integer. *)
Definition whole (v : num) : Prop :=
  exists N, 0 <= N /\ v = Float (Finite (N * scale)).

Definition wholes (leaves : list (pystr * num)) : Prop :=
  Forall (fun e => whole (snd e)) leaves.

(** Every per-slug sum of contributions is at most [2^53]. *)
Definition within_limit (leaves : list (pystr * num)) : Prop :=
  forall k, total k leaves <= 2 ^ 53 * scale.

(** The mapping holds, under each slug of [leaves], the exact sum of that
    slug's contributions. *)
Definition exact_for (raw : dict num) (leaves : list (pystr * num)) : Prop :=
  NoDup (dict_keys raw)
  /\ forall k,
       dict_get raw k
       = if mem k (map fst leaves)
         then Some (Float (Finite (total k leaves)))
         else None.

(** A non-negative double: an integer, or [+inf]. *)
Definition whole_or_inf (v : num) : Prop := whole v \/ v = Float PosInf.

Section Leaves.

Variable find_recipe_url : pystr -> option pystr.
Variable scrape_recipe : pystr -> option Recipe.t.

(** Not a function of the program: the trace of what the leaves of the
    expansion return.  [raw_leaves] walks the tree as [compute_raw] does
    and lists the contributions [{slug: needed_qty}] in the order
    [compute_raw] reaches them, without adding them up: they are the terms
    of the sums that make the totals. *)
Fixpoint raw_leaves (fuel : nat) (name slug : pystr) (needed_qty : num)
    (level : Z) (apply_fail : bool) : exn (list (pystr * num)) :=
  match fuel with
  | O => Raise RecursionError
  | S fuel' =>
      match lookup find_recipe_url scrape_recipe name with
      | None => Ok [(slug, needed_qty)]
      | Some recipe =>
          n <- ceil_div needed_qty (Int (Recipe.yield_per recipe)) ;;
          crafts <- py_mul (Int n) (multiplier recipe level apply_fail) ;;
          subs <- mapM (fun entry =>
                          sub_needed <- py_mul (Int (Ingredient.qty_per (snd entry))) crafts ;;
                          raw_leaves fuel' (fst entry) (Ingredient.slug (snd entry))
                            sub_needed level apply_fail)
                       (Recipe.ingredients recipe) ;;
          Ok (List.concat subs)
      end
  end.

(** One ingredient's turn in [raw_leaves]. *)
Definition leaf_step (fuel : nat)
    (crafts : num) (level : Z) (apply_fail : bool)
    (entry : pystr * Ingredient.t) : exn (list (pystr * num)) :=
  sub_needed <- py_mul (Int (Ingredient.qty_per (snd entry))) crafts ;;
  raw_leaves fuel (fst entry) (Ingredient.slug (snd entry)) sub_needed level
    apply_fail.

End Leaves.

(* ================================================================== *)
(** ** Concrete recipe stores *)

(** A root item whose recipe yields 2 per craft from 3 units of [A],
    difficulty 5; [A] has no recipe; every stack holds 50. *)
Module Scenario.

Definition root_url : pystr := str "https://paxdei.gaming.tools/recipes/root".

Definition root_recipe : Recipe.t :=
  Recipe.make (str "Root") (str "Blacksmithing") 5
    [(str "A", Ingredient.make 3 (str "A")
                 (str "https://paxdei.gaming.tools/items/A"))]
    2 root_url.

Definition find_recipe_url (name : pystr) : option pystr :=
  if str_eqb name (str "Root") then Some root_url else None.

Definition scrape_recipe (url : pystr) : option Recipe.t :=
  if str_eqb url root_url then Some root_recipe else None.

Definition get_max_stack (slug : pystr) : Z := 50.

(** [str.title] on ASCII text: a letter is upper-cased after a non-letter
    and lower-cased after a letter. *)
Definition is_upper (c : N) : bool := ((65 <=? c) && (c <=? 90))%N.
Definition is_lower (c : N) : bool := ((97 <=? c) && (c <=? 122))%N.

Fixpoint title_from (after_letter : bool) (s : pystr) : pystr :=
  match s with
  | [] => []
  | c :: s' =>
      if is_upper c then (if after_letter then c + 32 else c)%N :: title_from true s'
      else if is_lower c then (if after_letter then c else c - 32)%N :: title_from true s'
      else c :: title_from false s'
  end.

Definition title (s : pystr) : pystr := title_from false s.

Definition report (fuel : nat) (quantity level : Z) : exn (pystr * pystr) :=
  generate_breakdown find_recipe_url scrape_recipe get_max_stack title
    fuel (str "Root") quantity level.

Definition full_document (r : exn (pystr * pystr)) : pystr :=
  match r with
  | Ok (md, _) => md
  | Raise _ => []
  end.

Definition summary (r : exn (pystr * pystr)) : pystr :=
  match r with
  | Ok (_, chat) => chat
  | Raise _ => []
  end.

End Scenario.

(** A frame made of an ingot, a rod and two plates; a rod and a plate are
    each made of one ingot, which has no recipe.  Every recipe yields 1
    and has difficulty 5. *)
Module Reorder.

Definition url_of (name : pystr) : pystr :=
  str "https://paxdei.gaming.tools/recipes/" ++ name.

Definition item (qty : Z) (name slug : string) : pystr * Ingredient.t :=
  (str name,
   Ingredient.make qty (str slug) (str "https://paxdei.gaming.tools/items/" ++ str slug)).

Definition ingot := item 1 "Iron Ingot" "iron_ingot".
Definition rod := item 1 "Iron Rod" "iron_rod".
Definition plate := item 2 "Iron Plate" "iron_plate".

Definition find_recipe_url (name : pystr) : option pystr :=
  if str_eqb name (str "Iron Frame") then Some (url_of name)
  else if str_eqb name (str "Iron Rod") then Some (url_of name)
  else if str_eqb name (str "Iron Plate") then Some (url_of name)
  else None.

(** The recipe store, with the frame's ingredients in the given order. *)
Definition scrape_recipe (frame : dict Ingredient.t) (url : pystr)
    : option Recipe.t :=
  if str_eqb url (url_of (str "Iron Frame"))
  then Some (Recipe.make (str "Iron Frame") (str "Blacksmithing") 5 frame 1 url)
  else if str_eqb url (url_of (str "Iron Rod"))
  then Some (Recipe.make (str "Iron Rod") (str "Blacksmithing") 5 [ingot] 1 url)
  else if str_eqb url (url_of (str "Iron Plate"))
  then Some (Recipe.make (str "Iron Plate") (str "Blacksmithing") 5 [ingot] 1 url)
  else None.

Definition page_order : dict Ingredient.t := [ingot; rod; plate].
Definition other_order : dict Ingredient.t := [rod; plate; ingot].

End Reorder.

(* ################################################################## *)
(** * Properties *)

(* ================================================================== *)
(** ** Strings, loops and dicts *)

Lemma str_eqb_refl (s : pystr) : str_eqb s s = true.
Proof.
  induction s as [|c s IH]; simpl; [reflexivity|].
  now rewrite N.eqb_refl, IH.
Qed.

Lemma str_eqb_eq (s t : pystr) : str_eqb s t = true <-> s = t.
Proof.
  split; [|intros ->; apply str_eqb_refl].
  revert t; induction s as [|c s IH]; intros [|d t]; simpl; try discriminate; auto.
  rewrite andb_true_iff, N.eqb_eq. intros [-> H]. f_equal. now apply IH.
Qed.

Lemma str_eqb_neq (s t : pystr) : str_eqb s t = false <-> s <> t.
Proof.
  rewrite <- str_eqb_eq. destruct (str_eqb s t); split; congruence.
Qed.

Lemma str_eqb_sym (s t : pystr) : str_eqb s t = str_eqb t s.
Proof.
  destruct (str_eqb s t) eqn:E.
  - apply str_eqb_eq in E. subst. symmetry. apply str_eqb_refl.
  - destruct (str_eqb t s) eqn:E'; [|reflexivity].
    apply str_eqb_eq in E'. subst. now rewrite str_eqb_refl in E.
Qed.

Lemma bind_ok {A B} (c : exn A) (k : A -> exn B) (b : B) :
  bind c k = Ok b -> exists a, c = Ok a /\ k a = Ok b.
Proof. destruct c as [a|e]; simpl; [eauto|discriminate]. Qed.

Lemma foldM_ext {A B} (f g : A -> B -> exn A) (l : list B) (a : A) :
  (forall a b, In b l -> f a b = g a b) -> foldM f l a = foldM g l a.
Proof.
  revert a; induction l as [|b l IH]; intros a H; simpl; [reflexivity|].
  rewrite (H a b (or_introl eq_refl)).
  destruct (g a b); simpl; [|reflexivity].
  apply IH. intros; apply H; now right.
Qed.

Lemma foldM_app {A B} (f : A -> B -> exn A) (l1 l2 : list B) (a : A) :
  foldM f (l1 ++ l2) a = (a' <- foldM f l1 a ;; foldM f l2 a').
Proof.
  revert a; induction l1 as [|b l1 IH]; intros a; simpl; [reflexivity|].
  destruct (f a b); simpl; [apply IH|reflexivity].
Qed.

Lemma foldM_ok_mono {A B} (f g : A -> B -> exn A) (l : list B) (a r : A) :
  (forall a b a', In b l -> f a b = Ok a' -> g a b = Ok a') ->
  foldM f l a = Ok r -> foldM g l a = Ok r.
Proof.
  revert a; induction l as [|b l IH]; intros a H; simpl; [auto|].
  intros E. apply bind_ok in E as (a' & E1 & E2).
  rewrite (H a b a' (or_introl eq_refl) E1). simpl.
  apply IH; [|exact E2]. intros; eapply H; eauto. now right.
Qed.

Lemma foldM_rel {A B} (R : A -> A -> Prop) (f g : A -> B -> exn A) (l : list B) :
  (forall a1 a2 b r1 r2,
      In b l -> R a1 a2 -> f a1 b = Ok r1 -> g a2 b = Ok r2 -> R r1 r2) ->
  forall a1 a2 r1 r2,
    R a1 a2 -> foldM f l a1 = Ok r1 -> foldM g l a2 = Ok r2 -> R r1 r2.
Proof.
  induction l as [|b l IH]; intros H a1 a2 r1 r2 Ha E1 E2; simpl in *.
  - injection E1 as <-. injection E2 as <-. exact Ha.
  - apply bind_ok in E1 as (c1 & C1 & E1), E2 as (c2 & C2 & E2).
    apply (IH (fun a1 a2 b r1 r2 Hin => H a1 a2 b r1 r2 (or_intror Hin))
              c1 c2 r1 r2); try assumption.
    apply (H a1 a2 b c1 c2); auto.
Qed.

Lemma mapM_ok_cons {A B} (f : A -> exn B) (a : A) (l : list A) (bs : list B) :
  mapM f (a :: l) = Ok bs ->
  exists b bs', f a = Ok b /\ mapM f l = Ok bs' /\ bs = b :: bs'.
Proof.
  simpl. intros E. apply bind_ok in E as (b & Eb & E).
  apply bind_ok in E as (bs' & Ebs & E). injection E as <-. eauto.
Qed.

Lemma mapM_pointwise {A B} (f g : A -> exn (list B)) (l : list A) :
  (forall a b, In a l -> f a = Ok b -> exists b', g a = Ok b' /\ Permutation b b') ->
  forall bs, mapM f l = Ok bs ->
    exists bs', mapM g l = Ok bs'
                /\ Permutation (List.concat bs) (List.concat bs').
Proof.
  induction l as [|a l IH]; intros H bs E.
  - injection E as <-. exists []. split; [reflexivity|constructor].
  - apply mapM_ok_cons in E as (b & bs0 & Eb & Ebs & ->).
    destruct (H a b (or_introl eq_refl) Eb) as (b' & Eb' & Pb).
    destruct (IH (fun a b Hin => H a b (or_intror Hin)) bs0 Ebs)
      as (bs0' & Ebs' & Pbs).
    exists (b' :: bs0'). simpl. rewrite Eb', Ebs'. split; [reflexivity|].
    now apply Permutation_app.
Qed.

Lemma mapM_permutation {A B} (g : A -> exn (list B)) (l l' : list A) :
  Permutation l l' ->
  forall bs, mapM g l = Ok bs ->
    exists bs', mapM g l' = Ok bs'
                /\ Permutation (List.concat bs) (List.concat bs').
Proof.
  induction 1 as [|x l l' _ IH|x y l|l l1 l2 _ IH1 _ IH2]; intros bs E.
  - exists bs. split; [exact E|reflexivity].
  - apply mapM_ok_cons in E as (b & bs0 & Eb & Ebs & ->).
    destruct (IH bs0 Ebs) as (bs0' & Ebs' & Pbs).
    exists (b :: bs0'). simpl. rewrite Eb, Ebs'. split; [reflexivity|].
    now apply Permutation_app_head.
  - apply mapM_ok_cons in E as (by_ & bs1 & Ey & E & ->).
    apply mapM_ok_cons in E as (bx & bs0 & Ex & Ebs & ->).
    exists (bx :: by_ :: bs0). simpl. rewrite Ex, Ey, Ebs.
    split; [reflexivity|]. simpl. apply Permutation_app_swap_app.
  - destruct (IH1 bs E) as (bs1 & E1 & P1).
    destruct (IH2 bs1 E1) as (bs2 & E2 & P2).
    exists bs2. split; [exact E2|]. now transitivity (List.concat bs1).
Qed.

Lemma dict_get_in_keys {V} (d : dict V) (k : pystr) :
  In k (dict_keys d) <-> exists v, dict_get d k = Some v.
Proof.
  induction d as [|[k' v'] d IH]; simpl.
  - split; [contradiction|intros (v & E); discriminate].
  - destruct (str_eqb k' k) eqn:E.
    + apply str_eqb_eq in E. subst. split; eauto.
    + apply str_eqb_neq in E. rewrite IH. split; [intros [?|?]|]; tauto.
Qed.

Lemma dict_set_keys {V} (d : dict V) (k : pystr) (v : V) (k0 : pystr) :
  In k0 (dict_keys (dict_set d k v)) <-> In k0 (dict_keys d) \/ k0 = k.
Proof.
  induction d as [|[k' v'] d IH]; simpl.
  - intuition congruence.
  - destruct (str_eqb k' k) eqn:E; simpl.
    + apply str_eqb_eq in E. subst. intuition congruence.
    + rewrite IH. tauto.
Qed.

(* ================================================================== *)
(** ** The failure model *)

(** The model's arithmetic agrees with the kernel's binary64 operations on
    the four constant expressions of [get_fail_multiplier]. *)
Example very_easy_binary64 : of_prim (1 / (1 - 0.08))%float = very_easy.
Proof. vm_compute. reflexivity. Qed.

Example easy_binary64 : of_prim (1 / (1 - 0.15))%float = easy.
Proof. vm_compute. reflexivity. Qed.

Example moderate_binary64 : of_prim (1 / (1 - 0.30))%float = moderate.
Proof. vm_compute. reflexivity. Qed.

Example hard_binary64 : of_prim (1 / (1 - 0.50))%float = hard.
Proof. vm_compute. reflexivity. Qed.

Lemma very_easy_value : very_easy = fdiv (fint 1) (literal 92 100).
Proof. vm_compute. reflexivity. Qed.

Lemma easy_value : easy = fdiv (fint 1) (literal 85 100).
Proof. vm_compute. reflexivity. Qed.

Lemma moderate_value : moderate = fdiv (fint 1) (literal 70 100).
Proof. vm_compute. reflexivity. Qed.

Lemma hard_value : hard = fdiv (fint 1) (literal 50 100).
Proof. vm_compute. reflexivity. Qed.

(** C2.  The failure multiplier is a total function of the integer pair
    (difficulty, effective level) that depends on [delta = difficulty -
    effectiveLevel] only and follows the four tiers of the specification:
    [1/0.92] for [delta <= 0], [1/0.85] for [0 < delta <= 3], [1/0.70] for
    [3 < delta <= 6], [1/0.50] above; the four boundary values are as
    listed. *)
Theorem get_fail_multiplier_tiers :
  (forall diff adjusted_level : Z,
      get_fail_multiplier diff adjusted_level
      = tier_multiplier (diff - adjusted_level))
  /\ get_fail_multiplier 5 5 = fdiv (fint 1) (literal 92 100)
  /\ get_fail_multiplier 8 5 = fdiv (fint 1) (literal 85 100)
  /\ get_fail_multiplier 11 5 = fdiv (fint 1) (literal 70 100)
  /\ get_fail_multiplier 12 5 = fdiv (fint 1) (literal 50 100).
Proof.
  split; [|split; [|split; [|split]];
            vm_compute; reflexivity].
  intros diff lvl. unfold get_fail_multiplier, tier_multiplier.
  rewrite <- very_easy_value, <- easy_value, <- moderate_value, <- hard_value.
  destruct (diff - lvl <=? 0) eqn:E0; [reflexivity|].
  apply Z.leb_gt in E0.
  assert (H0 : (0 <? diff - lvl) = true) by now apply Z.ltb_lt.
  rewrite H0; simpl.
  destruct (diff - lvl <=? 3) eqn:E3; [reflexivity|].
  apply Z.leb_gt in E3.
  assert (H3 : (3 <? diff - lvl) = true) by now apply Z.ltb_lt.
  rewrite H3; simpl. reflexivity.
Qed.

(* ================================================================== *)
(** ** The raw aggregator *)

Section RawAggregator.

Variable find_recipe_url : pystr -> option pystr.
Variable scrape_recipe : pystr -> option Recipe.t.

Lemma compute_raw_unfold (fuel : nat) (name slug : pystr) (q : num)
    (level : Z) (apply_fail : bool) :
  compute_raw find_recipe_url scrape_recipe (S fuel) name slug q level apply_fail
  = match lookup find_recipe_url scrape_recipe name with
    | None => Ok [(slug, q)]
    | Some recipe =>
        n <- ceil_div q (Int (Recipe.yield_per recipe)) ;;
        crafts <- py_mul (Int n) (multiplier recipe level apply_fail) ;;
        foldM (ingredient_step find_recipe_url scrape_recipe fuel crafts level
                 apply_fail)
              (Recipe.ingredients recipe) []
    end.
Proof.
  cbn [compute_raw]. destruct (lookup _ _ name) as [recipe|]; [|reflexivity].
  unfold multiplier.
  destruct (ceil_div _ _) as [n|e]; cbn [bind]; [|reflexivity].
  replace (if apply_fail
           then Float (get_fail_multiplier (Recipe.diff recipe)
                         (if apply_fail then level + 1 else 999))
           else Float (fint 1))
    with (if apply_fail
          then Float (get_fail_multiplier (Recipe.diff recipe) (level + 1))
          else Float (fint 1))
    by now destruct apply_fail.
  destruct (py_mul (Int n) _) as [crafts|e]; cbn [bind]; [|reflexivity].
  apply foldM_ext. intros raw [sub_name info] _. reflexivity.
Qed.

(** A deeper recursion budget never changes a returned mapping. *)
Lemma compute_raw_fuel_mono (fuel : nat) :
  forall fuel' name slug needed_qty level apply_fail raw,
    (fuel <= fuel')%nat ->
    compute_raw find_recipe_url scrape_recipe fuel name slug needed_qty level
      apply_fail = Ok raw ->
    compute_raw find_recipe_url scrape_recipe fuel' name slug needed_qty level
      apply_fail = Ok raw.
Proof.
  induction fuel as [|fuel IH]; intros fuel' name slug q level flag raw Hle;
    [discriminate|].
  destruct fuel' as [|fuel']; [lia|].
  rewrite !compute_raw_unfold.
  destruct (lookup _ _ name) as [recipe|]; [|auto].
  intros E. apply bind_ok in E as (n & -> & E). cbn [bind].
  apply bind_ok in E as (crafts & -> & E). cbn [bind].
  revert E. apply foldM_ok_mono.
  intros acc entry acc' _ E. unfold ingredient_step in *.
  apply bind_ok in E as (sub_needed & -> & E). cbn [bind].
  apply bind_ok in E as (sub_raw & E & E').
  apply (IH fuel') in E; [|lia].
  now rewrite E.
Qed.

(** No recipe: a missing URL, an empty one, or a failed scrape. *)
Lemma lookup_absent (name : pystr) :
  find_recipe_url name = None
  \/ (exists url, find_recipe_url name = Some url /\ scrape_recipe url = None) ->
  lookup find_recipe_url scrape_recipe name = None.
Proof.
  unfold lookup.
  intros [->|(url & -> & E)]; [reflexivity|].
  now destruct (str_falsy url).
Qed.

(** C3.  When the recipe lookup for an item is absent (no URL is found, or
    the fetch/parse of the URL returns nothing), [compute_raw] returns the
    singleton mapping [{slug: q}] for every slug, quantity, level and
    adjustment flag: the recursion stops at that node (one level of depth
    is enough) and nothing is raised. *)
Theorem compute_raw_leaf (fuel : nat) (name slug : pystr) (q : num)
    (level : Z) (apply_fail : bool) :
  find_recipe_url name = None
  \/ (exists url, find_recipe_url name = Some url /\ scrape_recipe url = None) ->
  compute_raw find_recipe_url scrape_recipe (S fuel) name slug q level apply_fail
  = Ok [(slug, q)].
Proof.
  intros H. apply lookup_absent in H.
  now rewrite compute_raw_unfold, H.
Qed.

(** C4.  With the failure adjustment disabled [compute_raw] does not
    depend on the level: any two levels give the same outcome (the same
    mapping, or the same exception), the multiplier being the constant
    [1.0]. *)
Theorem compute_raw_level_invariant (fuel : nat) (name slug : pystr)
    (q : num) (l1 l2 : Z) :
  compute_raw find_recipe_url scrape_recipe fuel name slug q l1 false
  = compute_raw find_recipe_url scrape_recipe fuel name slug q l2 false.
Proof.
  revert name slug q.
  induction fuel as [|fuel IH]; intros name slug q; [reflexivity|].
  rewrite !compute_raw_unfold.
  destruct (lookup _ _ name) as [recipe|]; [|reflexivity].
  destruct (ceil_div q _) as [n|e]; cbn [bind]; [|reflexivity].
  unfold multiplier.
  destruct (py_mul (Int n) _) as [crafts|e]; cbn [bind]; [|reflexivity].
  apply foldM_ext. intros acc entry _. unfold ingredient_step.
  destruct (py_mul _ crafts) as [sub_needed|e]; cbn [bind]; [|reflexivity].
  now rewrite IH.
Qed.

End RawAggregator.

(* ================================================================== *)
(** ** The end-to-end scenario *)

(** The model computes the scenario's adjusted quantity as the kernel's
    binary64 arithmetic does. *)
Example scenario_binary64 :
  of_prim (3 * (5 * (1 / (1 - 0.08))))%float = fdiv (fint 15) (literal 92 100)
  /\ of_prim (15 / 0.92)%float = fdiv (fint 15) (literal 92 100).
Proof. split; vm_compute; reflexivity. Qed.

(** C1.  In the end-to-end scenario (yield 2, one ingredient [A] with 3
    per craft, difficulty 5, level 5, quantity 10) [compute_raw] without
    adjustment returns [{A: 15.0}] ([ceil(10/2) = 5] crafts, [3 * 5]
    units), and with adjustment returns [{A: 15/0.92}], about 16.304: the
    multiplier is the Very Easy one ([delta = 5 - 6]) and the fractional
    crafts [5 * (1/0.92)] are carried unrounded into the quantity of [A]. *)
Theorem compute_raw_scenario (fuel : nat) :
  compute_raw Scenario.find_recipe_url Scenario.scrape_recipe (S (S fuel))
    (str "Root") (str "") (Int 10) 5 false
  = Ok [(str "A", Float (fint 15))]
  /\ compute_raw Scenario.find_recipe_url Scenario.scrape_recipe (S (S fuel))
       (str "Root") (str "") (Int 10) 5 true
     = Ok [(str "A", Float (fdiv (fint 15) (literal 92 100)))]
  /\ ceil_div (Int 10) (Int 2) = Ok 5
  /\ get_fail_multiplier 5 (5 + 1) = fdiv (fint 1) (literal 92 100)
  /\ fmul (fint 3) (fmul (fint 5) (fdiv (fint 1) (literal 92 100)))
     = fdiv (fint 15) (literal 92 100)
  /\ fleb (literal 16304 1000) (fdiv (fint 15) (literal 92 100))
     && fleb (fdiv (fint 15) (literal 92 100)) (literal 16305 1000) = true.
Proof.
  split; [|split; [|split; [|split; [|split]]]].
  - apply compute_raw_fuel_mono with (fuel := 2%nat); [lia|].
    vm_compute. reflexivity.
  - apply compute_raw_fuel_mono with (fuel := 2%nat); [lia|].
    vm_compute. reflexivity.
  - vm_compute. reflexivity.
  - vm_compute. reflexivity.
  - vm_compute. reflexivity.
  - vm_compute. reflexivity.
Qed.

(** The hypothesis of [compute_raw_leaf] is met by [A] in the scenario. *)
Lemma compute_raw_leaf_witness :
  compute_raw Scenario.find_recipe_url Scenario.scrape_recipe 1
    (str "A") (str "A") (Int 15) 5 true
  = Ok [(str "A", Int 15)].
Proof.
  apply (compute_raw_leaf Scenario.find_recipe_url Scenario.scrape_recipe 0).
  left. reflexivity.
Defined.

(* ================================================================== *)
(** ** The breakdown builder and its cache argument *)

Lemma preserves_sret {A} (a : A) : preserves_cache (sret a).
Proof. intros c. reflexivity. Qed.

Lemma preserves_lift {A} (r : exn A) : preserves_cache (lift r).
Proof. intros c. reflexivity. Qed.

Lemma preserves_cache_get (k : pystr) (default : Z) :
  preserves_cache (cache_get k default).
Proof. intros c. reflexivity. Qed.

Lemma preserves_sbind {A B} (m : stateful A) (k : A -> stateful B) :
  preserves_cache m -> (forall a, preserves_cache (k a)) ->
  preserves_cache (sbind m k).
Proof.
  intros Hm Hk c. unfold sbind. specialize (Hm c).
  destruct (m c) as [[a|e] c']; simpl in *; subst; [apply Hk|reflexivity].
Qed.

Lemma preserves_sfold {A B} (f : A -> B -> stateful A) (l : list B) :
  (forall a b, In b l -> preserves_cache (f a b)) ->
  forall a, preserves_cache (sfold f l a).
Proof.
  induction l as [|b l IH]; intros H a; simpl; [apply preserves_sret|].
  apply preserves_sbind; [apply H; now left|].
  intros a'. apply IH. intros; apply H; now right.
Qed.

Create HintDb frame.
#[local] Hint Resolve preserves_sret preserves_lift preserves_cache_get : frame.

Section BreakdownBuilder.

Variable find_recipe_url : pystr -> option pystr.
Variable scrape_recipe : pystr -> option Recipe.t.
Variable get_max_stack : pystr -> Z.

Lemma build_breakdown_preserves (fuel : nat) :
  forall name needed_qty level,
    preserves_cache
      (build_breakdown find_recipe_url scrape_recipe get_max_stack
         fuel name needed_qty level).
Proof.
  induction fuel as [|fuel IH]; intros name needed level;
    [apply preserves_lift|].
  cbn [build_breakdown].
  destruct (lookup _ _ name) as [recipe|]; [|apply preserves_sret].
  apply preserves_sbind; [auto with frame|]. intros crafts.
  apply preserves_sbind.
  - apply preserves_sfold. intros [bd table] [sub_name info] _.
    apply preserves_sbind; [auto with frame|]. intros max_st.
    apply preserves_sbind; [auto with frame|]. intros slots.
    apply preserves_sbind; [apply IH|]. intros sub.
    apply preserves_sret.
  - intros [bd table]. apply preserves_sret.
Qed.

(** C10.  [build_breakdown] never mutates the stack-size cache it is
    given: whatever the arguments and the recursion depth, and whether it
    returns or raises, the mapping the caller holds after the call is the
    one it passed in (the cache is only read, by [get] with a computed
    fallback). *)
Theorem build_breakdown_cache_unchanged (fuel : nat) (name : pystr)
    (needed_qty level : Z) (stacks_cache : dict Z) :
  snd (build_breakdown find_recipe_url scrape_recipe get_max_stack
         fuel name needed_qty level stacks_cache)
  = stacks_cache.
Proof. apply build_breakdown_preserves. Qed.

End BreakdownBuilder.

(* ================================================================== *)
(** ** The report assembler *)

Lemma chat_of_short (breakdown : pystr) :
  str_len breakdown <= 1900 -> chat_of breakdown = breakdown.
Proof.
  intros H. unfold chat_of.
  destruct (1900 <? str_len breakdown) eqn:E; [|reflexivity].
  apply Z.ltb_lt in E. lia.
Qed.

Lemma chat_of_long (breakdown : pystr) :
  1900 < str_len breakdown ->
  chat_of breakdown = firstn 1900 breakdown ++ str "..."
  /\ str_len (chat_of breakdown) = 1903.
Proof.
  intros H. unfold chat_of.
  apply Z.ltb_lt in H as E. rewrite E. split; [reflexivity|].
  unfold str_len, str_slice_to in *.
  rewrite length_app, firstn_length_le by lia. reflexivity.
Qed.

Section ReportAssembler.

Variable find_recipe_url : pystr -> option pystr.
Variable scrape_recipe : pystr -> option Recipe.t.
Variable get_max_stack : pystr -> Z.
Variable title : pystr -> pystr.

(** C8.  The second value returned by [generate_breakdown] is computed
    from the breakdown text alone: it is that text when it has at most
    1900 characters, and otherwise its first 1900 characters followed by
    ["..."]; the breakdown is what [build_breakdown] returns for the root
    item on the stack table of the two raw mappings. *)
Theorem generate_breakdown_summary (fuel : nat) (item_name : pystr)
    (quantity level : Z) (md chat : pystr) :
  generate_breakdown find_recipe_url scrape_recipe get_max_stack title
    fuel item_name quantity level = Ok (md, chat) ->
  exists orig adj breakdown,
    compute_raw find_recipe_url scrape_recipe fuel item_name []
      (Int quantity) level false = Ok orig
    /\ compute_raw find_recipe_url scrape_recipe fuel item_name []
         (Int quantity) level true = Ok adj
    /\ fst (build_breakdown find_recipe_url scrape_recipe get_max_stack
              fuel item_name quantity level (stack_table get_max_stack orig adj))
       = Ok breakdown
    /\ chat = (if str_len breakdown <=? 1900 then breakdown
               else firstn 1900 breakdown ++ str "...").
Proof.
  unfold generate_breakdown. intros E.
  apply bind_ok in E as (orig & Eorig & E).
  apply bind_ok in E as (adj & Eadj & E).
  destruct (build_breakdown _ _ _ _ _ _ _ _) as [built stacks] eqn:Eb.
  apply bind_ok in E as (breakdown & -> & E).
  apply bind_ok in E as (slots_orig & _ & E).
  apply bind_ok in E as (slots_adj & _ & E).
  apply bind_ok in E as (chests_adj & _ & E).
  apply bind_ok in E as (final_tbl & _ & E).
  apply bind_ok in E as (pct & _ & E).
  apply bind_ok in E as (chests & _ & E).
  injection E as _ <-.
  exists orig, adj, breakdown. repeat (split; [assumption|]).
  split; [now rewrite Eb|].
  destruct (str_len breakdown <=? 1900) eqn:El.
  - apply chat_of_short. now apply Z.leb_le.
  - apply chat_of_long. now apply Z.leb_gt.
Qed.

End ReportAssembler.

(** The hypothesis of [generate_breakdown_summary] is met by the scenario. *)
Lemma generate_breakdown_summary_witness :
  exists orig adj breakdown,
    compute_raw Scenario.find_recipe_url Scenario.scrape_recipe 2 (str "Root") []
      (Int 10) 5 false = Ok orig
    /\ compute_raw Scenario.find_recipe_url Scenario.scrape_recipe 2 (str "Root") []
         (Int 10) 5 true = Ok adj
    /\ fst (build_breakdown Scenario.find_recipe_url Scenario.scrape_recipe
              Scenario.get_max_stack 2 (str "Root") 10 5
              (stack_table Scenario.get_max_stack orig adj))
       = Ok breakdown
    /\ Scenario.summary (Scenario.report 2 10 5)
       = (if str_len breakdown <=? 1900 then breakdown
          else firstn 1900 breakdown ++ str "...").
Proof.
  apply (generate_breakdown_summary
           Scenario.find_recipe_url Scenario.scrape_recipe
           Scenario.get_max_stack Scenario.title 2 (str "Root") 10 5
           (Scenario.full_document (Scenario.report 2 10 5))
           (Scenario.summary (Scenario.report 2 10 5))).
  vm_compute. reflexivity.
Defined.

(** *** Percentage overhead *)

Lemma scale_pos : 0 < scale.
Proof. unfold scale. apply Z.pow_pos_nonneg; lia. Qed.

(** C6, as stated, fails: for 5 adjusted slots against 3 original ones the
    overhead is 66.67 per cent, which rounds to 67, and the program
    reports 66. *)
Lemma pct_overhead_not_rounded :
  pct_overhead 5 3 = Ok 66
  /\ pct_rounded 5 3 = Ok 67
  /\ pct_overhead 5 3 <> pct_rounded 5 3.
Proof.
  assert (H1 : pct_overhead 5 3 = Ok 66) by (vm_compute; reflexivity).
  assert (H2 : pct_rounded 5 3 = Ok 67) by (vm_compute; reflexivity).
  split; [exact H1|]. split; [exact H2|].
  rewrite H1, H2. discriminate.
Qed.

(** C6, amended.  The overhead is 0 when [slots_orig] is 0; otherwise it
    is the double [(slots_adj / slots_orig - 1) * 100] truncated toward
    zero (Python's [int]): its magnitude is the integer part of the
    double's magnitude and its sign is the double's. *)
Theorem pct_overhead_truncates (slots_adj : Z) :
  pct_overhead slots_adj 0 = Ok 0
  /\ forall slots_orig pct,
       slots_orig <> 0 ->
       pct_overhead slots_adj slots_orig = Ok pct ->
       exists u,
         pct_float slots_adj slots_orig = Ok (Float (Finite u))
         /\ Z.abs pct * scale <= Z.abs u < (Z.abs pct + 1) * scale
         /\ 0 <= pct * Z.sgn u.
Proof.
  split; [reflexivity|].
  intros slots_orig pct Hnz. unfold pct_overhead.
  apply Z.eqb_neq in Hnz. rewrite Hnz.
  intros E. apply bind_ok in E as (x & Ex & E).
  destruct x as [n|[u| | |]]; try discriminate.
  - (* the expression is a float: [Int / Int] is one *)
    unfold pct_float in Ex.
    apply bind_ok in Ex as (r & Er & Ex).
    unfold py_truediv in Er.
    destruct (slots_orig =? 0); [discriminate|].
    destruct (round64 _ _); try discriminate.
    injection Er as <-.
    apply bind_ok in Ex as (d & Ed & Ex).
    unfold py_sub in Ed. cbn [as_float bind] in Ed.
    destruct (to_float 1); [|discriminate].
    cbn [bind] in Ed. injection Ed as <-.
    unfold py_mul in Ex. cbn [as_float bind] in Ex.
    destruct (to_float 100); discriminate.
  - exists u. split; [exact Ex|].
    unfold py_int in E. injection E as <-.
    pose proof scale_pos as Hs.
    assert (Habs : Z.abs (Z.quot u scale) = Z.abs u / scale).
    { rewrite <- Z.quot_abs by lia.
      rewrite (Z.abs_eq scale) by lia.
      apply Z.quot_div_nonneg; lia. }
    rewrite Habs. split.
    + pose proof (Z.mul_div_le (Z.abs u) scale Hs).
      pose proof (Z.mul_succ_div_gt (Z.abs u) scale Hs). lia.
    + destruct (Z.le_gt_cases 0 u) as [Hu|Hu].
      * pose proof (Z.quot_pos u scale Hu Hs).
        pose proof (Z.sgn_nonneg u). nia.
      * replace u with (- - u) by lia.
        rewrite Z.quot_opp_l by lia.
        pose proof (Z.quot_pos (- u) scale ltac:(lia) Hs).
        rewrite Z.sgn_opp. rewrite (Z.sgn_pos (- u)) by lia. lia.
Qed.

(** The amended C6 at 23 adjusted slots against 20: the double
    [(23/20 - 1) * 100] is just below 15 and the program reports 14. *)
Lemma pct_overhead_truncates_witness :
  exists u,
    pct_float 23 20 = Ok (Float (Finite u))
    /\ Z.abs 14 * scale <= Z.abs u < (Z.abs 14 + 1) * scale
    /\ 0 <= 14 * Z.sgn u.
Proof.
  apply (proj2 (pct_overhead_truncates 23) 20 14).
  - discriminate.
  - vm_compute. reflexivity.
Defined.

(** *** Chest count *)

(** C7 fails at quantity 640 in the scenario: the ideal mapping takes 20
    slots and the adjusted one 21, so the adjusted chest count is
    [ceil(21/20) = 2], but the document reports the chest count of the
    ideal slots, 1.  ([chests_adj] is computed and never used.) *)
Lemma chests_reported_from_original_slots :
  let find := Scenario.find_recipe_url in
  let scrape := Scenario.scrape_recipe in
  let orig := [(str "A", Float (fint 960))] in
  let adj := [(str "A", Float (fmul (fint 3) (fmul (fint 320) very_easy)))] in
  let stacks := stack_table Scenario.get_max_stack orig adj in
  let md := Scenario.full_document (Scenario.report 2 640 5) in
  compute_raw find scrape 2 (str "Root") [] (Int 640) 5 false = Ok orig
  /\ compute_raw find scrape 2 (str "Root") [] (Int 640) 5 true = Ok adj
  /\ slot_total stacks orig = Ok 20
  /\ slot_total stacks adj = Ok 21
  /\ ceil_div (Int 21) (Int 20) = Ok 2
  /\ str_contains (str "**Total Raw Slots**: `20` → **~1 Chests**") md = true
  /\ str_contains (str "~2 Chests") md = false.
Proof.
  cbv zeta.
  split; [|split; [|split; [|split; [|split; [|split]]]]];
    vm_compute; reflexivity.
Qed.

(* ================================================================== *)
(** ** Rounding is monotone *)

(** The facts about binary64 rounding that the comparison of adjusted and
    ideal totals rests on: every operation of the program is monotone on
    non-negative doubles. *)

Lemma rne_cases (a b : Z) :
  0 < b ->
  exists q r,
    a = b * q + r /\ 0 <= r < b
    /\ ((2 * r < b /\ rne a b = q)
        \/ (b < 2 * r /\ rne a b = q + 1)
        \/ (2 * r = b /\ Z.even q = true /\ rne a b = q)
        \/ (2 * r = b /\ Z.even q = false /\ rne a b = q + 1)).
Proof.
  intros Hb. unfold rne.
  pose proof (Z_div_mod a b ltac:(lia)) as H.
  destruct (Z.div_eucl a b) as [q r]. destruct H as [H1 H2].
  exists q, r. split; [exact H1|]. split; [exact H2|].
  destruct (2 * r <? b) eqn:E1; [apply Z.ltb_lt in E1; auto|].
  apply Z.ltb_ge in E1.
  destruct (b <? 2 * r) eqn:E2; [apply Z.ltb_lt in E2; auto|].
  apply Z.ltb_ge in E2.
  assert (2 * r = b) by lia.
  destruct (Z.even q) eqn:E3; auto 6.
Qed.

Lemma rne_mono (a b c d : Z) :
  0 < b -> 0 < d -> a * d <= c * b -> rne a b <= rne c d.
Proof.
  intros Hb Hd H.
  destruct (rne_cases a b Hb) as (q1 & r1 & E1 & R1 & C1).
  destruct (rne_cases c d Hd) as (q2 & r2 & E2 & R2 & C2).
  assert (Hq : q1 <= q2).
  { destruct (Z_le_gt_dec q1 q2) as [|Hgt]; [assumption|exfalso].
    assert (0 < b * d) by nia.
    assert (b * d * (q2 + 1) <= b * d * q1) by (apply Z.mul_le_mono_nonneg_l; lia).
    assert (0 <= r1 * d) by nia.
    assert (r2 * b < d * b) by nia.
    subst a c. lia. }
  destruct (Z.eq_dec q1 q2) as [<-|Hne].
  - assert (Hr : r1 * d <= r2 * b) by nia.
    destruct C1 as [[? ->]|[[? ->]|[(? & ? & ->)|(? & ? & ->)]]];
    destruct C2 as [[? ->]|[[? ->]|[(? & ? & ->)|(? & ? & ->)]]];
      try lia; try nia; congruence.
  - assert (q1 + 1 <= q2) by lia.
    destruct C1 as [[? ->]|[[? ->]|[(? & ? & ->)|(? & ? & ->)]]];
    destruct C2 as [[? ->]|[[? ->]|[(? & ? & ->)|(? & ? & ->)]]]; lia.
Qed.

Lemma rne_exact (n b : Z) : 0 < b -> rne (n * b) b = n.
Proof.
  intros Hb.
  destruct (rne_cases (n * b) b Hb) as (q & r & E & R & C).
  assert (q = n).
  { destruct (Z.lt_trichotomy q n) as [Hl|[He|Hg]]; [exfalso|assumption|exfalso].
    - assert (b * (q + 1) <= b * n) by (apply Z.mul_le_mono_nonneg_l; lia). lia.
    - assert (b * (n + 1) <= b * q) by (apply Z.mul_le_mono_nonneg_l; lia). lia. }
  subst q. assert (r = 0) by lia. subst r.
  destruct C as [[? ->]|[[? ->]|[(? & ? & ->)|(? & ? & ->)]]]; lia.
Qed.

Lemma rne_nonneg (a b : Z) : 0 < b -> 0 <= a -> 0 <= rne a b.
Proof.
  intros Hb Ha. rewrite <- (rne_exact 0 b Hb).
  apply rne_mono; lia.
Qed.

Lemma pow2_pos (k : Z) : 0 <= k -> 0 < 2 ^ k.
Proof. intros. apply Z.pow_pos_nonneg; lia. Qed.

Lemma pow2_le (j k : Z) : 0 <= j <= k -> 2 ^ j <= 2 ^ k.
Proof. intros. apply Z.pow_le_mono_r; lia. Qed.

Lemma binade_nonneg (a b : Z) : 0 <= binade a b.
Proof. unfold binade. lia. Qed.

(** [|a / b| < 2^(53 + k)], and [2^(52 + k) <= |a / b|] when [k] is not 0. *)
Lemma binade_spec (a b : Z) :
  0 < b ->
  Z.abs a < b * 2 ^ (53 + binade a b)
  /\ (0 < binade a b -> b * 2 ^ (52 + binade a b) <= Z.abs a).
Proof.
  intros Hb. unfold binade.
  set (x := Z.abs a). assert (Hx : 0 <= x) by (unfold x; lia).
  set (lb := Z.log2 b). set (la := Z.log2 x).
  assert (Hlb : 2 ^ lb <= b < 2 ^ (lb + 1)).
  { unfold lb. pose proof (Z.log2_spec b Hb). now rewrite <- Z.add_1_r in H. }
  assert (Hlb0 : 0 <= lb) by apply Z.log2_nonneg.
  assert (Hla0 : 0 <= la) by apply Z.log2_nonneg.
  destruct (Z.eq_dec x 0) as [Hz|Hnz].
  - (* a = 0 *)
    assert (la = 0) by (unfold la; rewrite Hz; reflexivity).
    assert (Hk : Z.max 0 ((if b * 2 ^ (la - lb) <=? x then la - lb else la - lb - 1) - 52) = 0).
    { destruct (_ <=? _); lia. }
    rewrite Hk. split; [|lia].
    rewrite Hz. assert (0 < 2 ^ (53 + 0)) by (apply pow2_pos; lia). nia.
  - assert (Hla : 2 ^ la <= x < 2 ^ (la + 1)).
    { unfold la. pose proof (Z.log2_spec x ltac:(lia)). now rewrite <- Z.add_1_r in H. }
    set (d := la - lb).
    (* x < b * 2^(d+1) when d + 1 >= 0 *)
    assert (Hup : 0 <= d + 1 -> x < b * 2 ^ (d + 1)).
    { intros Hd. assert (2 ^ (la + 1) = 2 ^ lb * 2 ^ (d + 1)).
      { rewrite <- Z.pow_add_r by lia. f_equal. unfold d. lia. }
      assert (0 < 2 ^ (d + 1)) by (apply pow2_pos; lia).
      assert (2 ^ lb * 2 ^ (d + 1) <= b * 2 ^ (d + 1))
        by (apply Z.mul_le_mono_nonneg_r; lia).
      lia. }
    (* b * 2^(d-1) <= x when d - 1 >= 0 *)
    assert (Hlo : 0 <= d - 1 -> b * 2 ^ (d - 1) <= x).
    { intros Hd. assert (2 ^ la = 2 ^ (lb + 1) * 2 ^ (d - 1)).
      { rewrite <- Z.pow_add_r by lia. f_equal. unfold d. lia. }
      assert (0 < 2 ^ (d - 1)) by (apply pow2_pos; lia).
      assert (b * 2 ^ (d - 1) < 2 ^ (lb + 1) * 2 ^ (d - 1))
        by (apply Z.mul_lt_mono_pos_r; lia).
      lia. }
    destruct (b * 2 ^ d <=? x) eqn:E.
    + apply Z.leb_le in E.
      destruct (Z_le_gt_dec (d - 52) 0) as [Hs|Hs].
      * rewrite Z.max_l by lia. split; [|lia].
        destruct (Z_le_gt_dec 0 (d + 1)) as [Hd|Hd].
        -- specialize (Hup Hd).
           assert (2 ^ (d + 1) <= 2 ^ (53 + 0)) by (apply pow2_le; lia). nia.
        -- (* x < 2^(la+1) <= 2^lb <= b *)
           assert (2 ^ (la + 1) <= 2 ^ lb) by (apply pow2_le; unfold d in Hd; lia).
           assert (1 <= 2 ^ (53 + 0)) by (pose proof (pow2_pos (53 + 0)); lia). nia.
      * rewrite Z.max_r by lia. split.
        -- replace (53 + (d - 52)) with (d + 1) by lia. apply Hup. lia.
        -- intros _. replace (52 + (d - 52)) with d by lia. exact E.
    + apply Z.leb_gt in E.
      assert (Hd0 : 0 <= d).
      { destruct (Z_le_gt_dec 0 d); [assumption|exfalso].
        rewrite Z.pow_neg_r in E by lia. lia. }
      destruct (Z_le_gt_dec (d - 1 - 52) 0) as [Hs|Hs].
      * rewrite Z.max_l by lia. split; [|lia].
        assert (2 ^ d <= 2 ^ (53 + 0)) by (apply pow2_le; lia). nia.
      * rewrite Z.max_r by lia. split.
        -- replace (53 + (d - 1 - 52)) with d by lia. exact E.
        -- intros _. replace (52 + (d - 1 - 52)) with (d - 1) by lia.
           apply Hlo. lia.
Qed.

Lemma round_units_mono (a1 b1 a2 b2 : Z) :
  0 < b1 -> 0 < b2 -> 0 <= a1 -> a1 * b2 <= a2 * b1 ->
  round_units a1 b1 <= round_units a2 b2.
Proof.
  intros Hb1 Hb2 Ha1 H.
  assert (Ha2 : 0 <= a2) by nia.
  unfold round_units.
  pose proof (binade_nonneg a1 b1) as Hk1.
  pose proof (binade_nonneg a2 b2) as Hk2.
  destruct (binade_spec a1 b1 Hb1) as [U1 L1].
  destruct (binade_spec a2 b2 Hb2) as [U2 L2].
  rewrite Z.abs_eq in U1, L1, U2, L2 by assumption.
  set (k1 := binade a1 b1) in *. set (k2 := binade a2 b2) in *.
  assert (P1 : 0 < 2 ^ k1) by (apply pow2_pos; lia).
  assert (P2 : 0 < 2 ^ k2) by (apply pow2_pos; lia).
  assert (Hle : k1 <= k2).
  { destruct (Z_le_gt_dec k1 k2) as [|Hgt]; [assumption|exfalso].
    specialize (L1 ltac:(lia)).
    assert (2 ^ (53 + k2) <= 2 ^ (52 + k1)) by (apply pow2_le; lia).
    assert (0 < 2 ^ (52 + k1)) by (apply pow2_pos; lia).
    assert (a2 * b1 < b2 * 2 ^ (52 + k1) * b1) by nia.
    assert (b1 * 2 ^ (52 + k1) * b2 <= a1 * b2) by nia.
    lia. }
  destruct (Z.eq_dec k1 k2) as [Heq|Hne].
  - rewrite <- Heq. apply Z.mul_le_mono_nonneg_r; [lia|].
    apply rne_mono; nia.
  - specialize (L2 ltac:(lia)).
    assert (R1 : rne a1 (b1 * 2 ^ k1) <= 2 ^ 53).
    { assert (B : 0 < b1 * 2 ^ k1) by nia.
      rewrite <- (rne_exact (2 ^ 53) (b1 * 2 ^ k1) B).
      apply rne_mono; try assumption.
      rewrite Z.pow_add_r in U1 by lia. nia. }
    assert (R2 : 2 ^ 52 <= rne a2 (b2 * 2 ^ k2)).
    { assert (B : 0 < b2 * 2 ^ k2) by nia.
      rewrite <- (rne_exact (2 ^ 52) (b2 * 2 ^ k2) B).
      apply rne_mono; try assumption.
      rewrite Z.pow_add_r in L2 by lia. nia. }
    assert (2 ^ 53 * 2 ^ k1 <= 2 ^ 52 * 2 ^ k2).
    { rewrite <- !Z.pow_add_r by lia. apply pow2_le. lia. }
    assert (0 < 2 ^ 52) by (apply pow2_pos; lia).
    assert (rne a1 (b1 * 2 ^ k1) * 2 ^ k1 <= 2 ^ 53 * 2 ^ k1) by nia.
    assert (2 ^ 52 * 2 ^ k2 <= rne a2 (b2 * 2 ^ k2) * 2 ^ k2) by nia.
    lia.
Qed.

(** *** Order on doubles *)

Lemma max_units_pos : 0 < max_units.
Proof.
  unfold max_units.
  assert (2 ^ 0 < 2 ^ 53) by (apply Z.pow_lt_mono_r; lia).
  assert (0 < 2 ^ 2045) by (apply pow2_pos; lia).
  change (2 ^ 0) with 1 in *. nia.
Qed.

Lemma round_units_nonneg (a b : Z) : 0 < b -> 0 <= a -> 0 <= round_units a b.
Proof.
  intros Hb Ha. unfold round_units.
  pose proof (binade_nonneg a b).
  assert (0 < 2 ^ binade a b) by (apply pow2_pos; lia).
  assert (0 <= rne a (b * 2 ^ binade a b)) by (apply rne_nonneg; nia).
  nia.
Qed.

Lemma round64_not_nan (a b : Z) : round64 a b <> NaN.
Proof.
  unfold round64. destruct (_ <? _); [discriminate|].
  destruct (_ <? _); discriminate.
Qed.

Lemma round64_nonneg (a b : Z) : 0 < b -> 0 <= a -> fnonneg (round64 a b).
Proof.
  intros Hb Ha. pose proof (round_units_nonneg a b Hb Ha).
  pose proof max_units_pos.
  unfold fnonneg, round64.
  destruct (max_units <? _); [reflexivity|].
  destruct (_ <? - max_units) eqn:E; [apply Z.ltb_lt in E; lia|].
  simpl. now apply Z.leb_le.
Qed.

Lemma round64_mono (a1 b1 a2 b2 : Z) :
  0 < b1 -> 0 < b2 -> 0 <= a1 -> a1 * b2 <= a2 * b1 ->
  fle (round64 a1 b1) (round64 a2 b2).
Proof.
  intros Hb1 Hb2 Ha1 H.
  pose proof (round_units_mono a1 b1 a2 b2 Hb1 Hb2 Ha1 H) as Hm.
  pose proof (round_units_nonneg a1 b1 Hb1 Ha1) as H0.
  pose proof max_units_pos.
  unfold fle, round64.
  destruct (max_units <? round_units a1 b1) eqn:E1.
  - apply Z.ltb_lt in E1.
    assert (E2 : (max_units <? round_units a2 b2) = true) by (apply Z.ltb_lt; lia).
    now rewrite E2.
  - destruct (round_units a1 b1 <? - max_units) eqn:E3;
      [apply Z.ltb_lt in E3; lia|].
    destruct (max_units <? round_units a2 b2); [reflexivity|].
    destruct (round_units a2 b2 <? - max_units) eqn:E4;
      [apply Z.ltb_lt in E4; lia|].
    simpl. now apply Z.leb_le.
Qed.

(** A non-negative double: a finite one or [+inf]. *)
Lemma fnonneg_cases (x : pyfloat) :
  fnonneg x -> (exists u, x = Finite u /\ 0 <= u) \/ x = PosInf.
Proof.
  unfold fnonneg. destruct x as [u| | |]; simpl; try discriminate; auto.
  intros H. apply Z.leb_le in H. eauto.
Qed.

Lemma fle_finite (u v : Z) : fle (Finite u) (Finite v) <-> u <= v.
Proof. unfold fle. simpl. apply Z.leb_le. Qed.

Lemma fle_pos_inf (x : pyfloat) : x <> NaN -> fle x PosInf.
Proof. unfold fle. destruct x; simpl; congruence. Qed.

Lemma fle_from_inf (y : pyfloat) : fle PosInf y -> y = PosInf.
Proof. unfold fle. destruct y; simpl; congruence. Qed.

Lemma fle_refl (x : pyfloat) : fnonneg x -> fle x x.
Proof.
  intros H. destruct (fnonneg_cases x H) as [(u & -> & _)| -> ];
    [apply fle_finite; lia|reflexivity].
Qed.

Lemma fmul_mono_finite (u1 v1 u2 v2 : Z) :
  0 <= u1 <= u2 -> 0 <= v1 <= v2 ->
  fle (fmul (Finite u1) (Finite v1)) (fmul (Finite u2) (Finite v2))
  /\ fnonneg (fmul (Finite u1) (Finite v1)).
Proof.
  intros Hu Hv. pose proof scale_pos. simpl. split.
  - apply round64_mono; [lia|lia|nia|].
    apply Z.mul_le_mono_nonneg_r; [lia|nia].
  - apply round64_nonneg; [lia|nia].
Qed.

Lemma fmul_mono_r (v : Z) (y1 y2 : pyfloat) :
  0 < v -> fnonneg y1 -> fle y1 y2 ->
  fle (fmul (Finite v) y1) (fmul (Finite v) y2)
  /\ fnonneg (fmul (Finite v) y1).
Proof.
  intros Hv H1 H.
  destruct (fnonneg_cases y1 H1) as [(u1 & -> & Hu1)| -> ].
  - destruct y2 as [u2| | |]; try discriminate.
    + apply fle_finite in H. apply fmul_mono_finite; lia.
    + split; [|apply (fmul_mono_finite v u1 v u1); lia].
      simpl fmul at 2. unfold inf_of_sign.
      rewrite (Z.sgn_pos v Hv). simpl.
      apply fle_pos_inf. simpl. apply round64_not_nan.
  - apply fle_from_inf in H. subst y2.
    simpl. unfold inf_of_sign. rewrite (Z.sgn_pos v Hv). simpl.
    split; reflexivity.
Qed.

Lemma fdiv_mono_l (x1 x2 : pyfloat) (v : Z) :
  0 < v -> fnonneg x1 -> fle x1 x2 ->
  fle (fdiv x1 (Finite v)) (fdiv x2 (Finite v))
  /\ fnonneg (fdiv x1 (Finite v)).
Proof.
  intros Hv H1 H. pose proof scale_pos as Hs.
  assert (Ev : (v =? 0) = false) by (apply Z.eqb_neq; lia).
  assert (Ev' : (v <? 0) = false) by (apply Z.ltb_ge; lia).
  destruct (fnonneg_cases x1 H1) as [(u1 & -> & Hu1)| -> ].
  - assert (N1 : fnonneg (fdiv (Finite u1) (Finite v))).
    { simpl. rewrite Ev, (Z.sgn_pos v Hv), (Z.abs_eq v) by lia.
      apply round64_nonneg; [lia|nia]. }
    split; [|exact N1].
    destruct x2 as [u2| | |]; try discriminate.
    + apply fle_finite in H. simpl.
      rewrite Ev, (Z.sgn_pos v Hv), (Z.abs_eq v) by lia.
      apply round64_mono; [lia|lia|nia|].
      apply Z.mul_le_mono_nonneg_r; [lia|nia].
    + simpl fdiv at 2. rewrite Ev'. simpl.
      apply fle_pos_inf. simpl.
      rewrite Ev. apply round64_not_nan.
  - apply fle_from_inf in H. subst x2.
    simpl. rewrite Ev'. simpl. split; reflexivity.
Qed.

Lemma fadd_mono (x1 y1 x2 y2 : pyfloat) :
  fnonneg x1 -> fnonneg y1 -> fle x1 x2 -> fle y1 y2 ->
  fle (fadd x1 y1) (fadd x2 y2) /\ fnonneg (fadd x1 y1).
Proof.
  intros Nx Ny Hx Hy.
  destruct (fnonneg_cases x1 Nx) as [(u1 & -> & Hu1)| -> ];
  destruct (fnonneg_cases y1 Ny) as [(v1 & -> & Hv1)| -> ].
  - assert (N : fnonneg (fadd (Finite u1) (Finite v1)))
      by (simpl; apply round64_nonneg; lia).
    split; [|exact N].
    destruct x2 as [u2| | |]; try discriminate;
    destruct y2 as [v2| | |]; try discriminate.
    + apply fle_finite in Hx, Hy. simpl. apply round64_mono; lia.
    + simpl. apply fle_pos_inf. apply round64_not_nan.
    + simpl. apply fle_pos_inf. apply round64_not_nan.
    + simpl. apply fle_pos_inf. apply round64_not_nan.
  - apply fle_from_inf in Hy. subst y2.
    destruct x2 as [u2| | |]; try discriminate; simpl; split; reflexivity.
  - apply fle_from_inf in Hx. subst x2.
    destruct y2 as [v2| | |]; try discriminate; simpl; split; reflexivity.
  - apply fle_from_inf in Hx, Hy. subst. simpl. split; reflexivity.
Qed.

(** *** Order on Python numbers *)

Lemma to_float_finite (n : Z) (f : pyfloat) :
  to_float n = Ok f -> f = round64 (n * scale) 1 /\ exists u, f = Finite u.
Proof.
  unfold to_float. destruct (round64 (n * scale) 1) as [u| | |];
    try discriminate.
  intros E. injection E as <-. eauto.
Qed.

Lemma to_float_mono (n1 n2 : Z) (f1 f2 : pyfloat) :
  0 <= n1 <= n2 -> to_float n1 = Ok f1 -> to_float n2 = Ok f2 ->
  fle f1 f2 /\ fnonneg f1.
Proof.
  intros H E1 E2. pose proof scale_pos.
  apply to_float_finite in E1 as [-> _], E2 as [-> _]. split.
  - apply round64_mono; [lia|lia|nia|].
    rewrite !Z.mul_1_r. apply Z.mul_le_mono_nonneg_r; lia.
  - apply round64_nonneg; [lia|nia].
Qed.

Lemma one_exact : round_units (1 * scale) 1 = 1 * scale.
Proof. vm_compute. reflexivity. Qed.

Lemma to_float_pos (n : Z) (f : pyfloat) :
  1 <= n -> to_float n = Ok f -> exists v, f = Finite v /\ 0 < v.
Proof.
  intros H E. pose proof scale_pos as Hs.
  apply to_float_finite in E as [E (v & ->)].
  exists v. split; [reflexivity|].
  assert (Hm : round_units (1 * scale) 1 <= round_units (n * scale) 1).
  { apply round_units_mono; [lia|lia|lia|].
    rewrite !Z.mul_1_r. apply Z.mul_le_mono_nonneg_r; lia. }
  rewrite one_exact in Hm.
  unfold round64 in E.
  destruct (max_units <? _); [discriminate|].
  destruct (_ <? - max_units); [discriminate|].
  injection E as ->. lia.
Qed.

Lemma as_float_mono (x1 x2 : num) (f1 f2 : pyfloat) :
  num_nonneg x1 -> num_le x1 x2 ->
  as_float x1 = Ok f1 -> as_float x2 = Ok f2 ->
  fle f1 f2 /\ fnonneg f1.
Proof.
  destruct x1 as [a1|g1], x2 as [a2|g2]; simpl; try contradiction.
  - intros N L. apply to_float_mono. lia.
  - intros N L E1 E2. injection E1 as <-. injection E2 as <-. auto.
Qed.

Lemma py_add_mono (x1 y1 x2 y2 r1 r2 : num) :
  num_nonneg x1 -> num_nonneg y1 -> num_le x1 x2 -> num_le y1 y2 ->
  py_add x1 y1 = Ok r1 -> py_add x2 y2 = Ok r2 ->
  num_le r1 r2 /\ num_nonneg r1.
Proof.
  intros Nx Ny Lx Ly E1 E2.
  assert (G : forall a1 b1 a2 b2 : pyfloat,
             as_float x1 = Ok a1 -> as_float y1 = Ok b1 ->
             as_float x2 = Ok a2 -> as_float y2 = Ok b2 ->
             num_le (Float (fadd a1 b1)) (Float (fadd a2 b2))
             /\ num_nonneg (Float (fadd a1 b1))).
  { intros a1 b1 a2 b2 A1 B1 A2 B2.
    destruct (as_float_mono _ _ _ _ Nx Lx A1 A2).
    destruct (as_float_mono _ _ _ _ Ny Ly B1 B2).
    simpl. now apply fadd_mono. }
  destruct x1 as [a1|f1], x2 as [a2|f2]; try contradiction;
  destruct y1 as [b1|g1], y2 as [b2|g2]; try contradiction;
    unfold py_add in E1, E2.
  - injection E1 as <-. injection E2 as <-. simpl in *. lia.
  - apply bind_ok in E1 as (c1 & C1 & E1), E2 as (c2 & C2 & E2).
    injection E1 as <-. injection E2 as <-. now apply G.
  - apply bind_ok in E1 as (c1 & C1 & E1), E2 as (c2 & C2 & E2).
    apply bind_ok in E1 as (d1 & D1 & E1), E2 as (d2 & D2 & E2).
    injection E1 as <-. injection E2 as <-. now apply G.
  - injection E1 as <-. injection E2 as <-. now apply G.
Qed.

Lemma py_ceil_mono (x1 x2 : num) (n1 n2 : Z) :
  num_nonneg x1 -> num_le x1 x2 ->
  py_ceil x1 = Ok n1 -> py_ceil x2 = Ok n2 -> 0 <= n1 <= n2.
Proof.
  pose proof scale_pos as Hs.
  destruct x1 as [a1|[u1| | |]], x2 as [a2|[u2| | |]]; simpl;
    try contradiction; try discriminate; unfold py_ceil.
  - intros N L E1 E2. injection E1 as <-. injection E2 as <-. lia.
  - intros N L E1 E2. injection E1 as <-. injection E2 as <-.
    apply fle_finite in L. apply fle_finite in N.
    assert (- u2 / scale <= - u1 / scale) by (apply Z.div_le_mono; lia).
    assert (- u1 / scale <= 0 / scale) by (apply Z.div_le_mono; lia).
    rewrite Z.div_0_l in * by lia. lia.
Qed.

(** [ceil(q / y)] for a positive int [y] is monotone in [q]. *)
Lemma ceil_div_mono (q1 q2 : num) (y n1 n2 : Z) :
  1 <= y -> num_nonneg q1 -> num_le q1 q2 ->
  ceil_div q1 (Int y) = Ok n1 -> ceil_div q2 (Int y) = Ok n2 ->
  0 <= n1 <= n2.
Proof.
  intros Hy N L E1 E2. pose proof scale_pos as Hs.
  unfold ceil_div in *.
  apply bind_ok in E1 as (d1 & D1 & E1), E2 as (d2 & D2 & E2).
  apply (py_ceil_mono d1 d2); try assumption.
  - (* the quotient is not negative *)
    destruct q1 as [a1|f1]; unfold py_truediv in D1.
    + replace (y =? 0) with false in D1 by (symmetry; apply Z.eqb_neq; lia).
      rewrite (Z.sgn_pos y), (Z.abs_eq y) in D1 by lia.
      pose proof (round64_nonneg (1 * a1 * scale) y ltac:(lia)
                    ltac:(simpl in N; nia)) as P.
      destruct (round64 _ _); try discriminate. injection D1 as <-. exact P.
    + cbn [as_float bind] in D1.
      destruct (to_float y) as [v|] eqn:V; [|discriminate].
      destruct (to_float_pos y v Hy V) as (w & -> & Hw).
      cbn [bind is_zero] in D1.
      replace (w =? 0) with false in D1 by (symmetry; apply Z.eqb_neq; lia).
      injection D1 as <-. simpl.
      apply (fdiv_mono_l f1 f1 w Hw N (fle_refl f1 N)).
  - destruct q1 as [a1|f1], q2 as [a2|f2]; try contradiction;
      unfold py_truediv in D1, D2.
    + replace (y =? 0) with false in * by (symmetry; apply Z.eqb_neq; lia).
      rewrite (Z.sgn_pos y), (Z.abs_eq y) in * by lia.
      simpl in N, L.
      pose proof (round64_mono (1 * a1 * scale) y (1 * a2 * scale) y
                    ltac:(lia) ltac:(lia) ltac:(nia)
                    ltac:(apply Z.mul_le_mono_nonneg_r; nia)) as P.
      destruct (round64 (1 * a1 * scale) y); try discriminate.
      destruct (round64 (1 * a2 * scale) y); try discriminate.
      injection D1 as <-. injection D2 as <-. exact P.
    + cbn [as_float bind] in D1, D2.
      destruct (to_float y) as [v|] eqn:V; [|discriminate].
      destruct (to_float_pos y v Hy V) as (w & -> & Hw).
      cbn [bind is_zero] in D1, D2.
      replace (w =? 0) with false in * by (symmetry; apply Z.eqb_neq; lia).
      injection D1 as <-. injection D2 as <-. simpl.
      now apply fdiv_mono_l.
Qed.

(** *** Pointwise order on raw mappings *)

Lemma dict_le_keys (d1 d2 : dict num) :
  dict_le d1 d2 -> dict_keys d1 = dict_keys d2.
Proof.
  induction 1 as [|[k1 v1] [k2 v2] d1 d2 (E & _) _ IH]; simpl in *;
    [reflexivity|congruence].
Qed.

Lemma dict_le_get (d1 d2 : dict num) (k : pystr) :
  dict_le d1 d2 ->
  match dict_get d1 k, dict_get d2 k with
  | Some v1, Some v2 => num_le v1 v2 /\ num_nonneg v1
  | None, None => True
  | _, _ => False
  end.
Proof.
  induction 1 as [|[k1 v1] [k2 v2] d1 d2 (E & L & N) _ IH]; simpl in *;
    [exact I|].
  subst k2. destruct (str_eqb k1 k); auto.
Qed.

Lemma dict_le_get_or (d1 d2 : dict num) (k : pystr) :
  dict_le d1 d2 ->
  num_le (dict_get_or d1 k (Int 0)) (dict_get_or d2 k (Int 0))
  /\ num_nonneg (dict_get_or d1 k (Int 0)).
Proof.
  intros H. apply (dict_le_get _ _ k) in H. unfold dict_get_or.
  destruct (dict_get d1 k), (dict_get d2 k); try contradiction;
    [exact H|simpl; lia].
Qed.

Lemma dict_le_set (d1 d2 : dict num) (k : pystr) (v1 v2 : num) :
  dict_le d1 d2 -> num_le v1 v2 -> num_nonneg v1 ->
  dict_le (dict_set d1 k v1) (dict_set d2 k v2).
Proof.
  intros H L N.
  induction H as [|[k1 w1] [k2 w2] d1 d2 (E & L' & N') H IH]; simpl in *.
  - constructor; [|constructor]. now repeat split.
  - subst k2. destruct (str_eqb k1 k).
    + constructor; [now repeat split|exact H].
    + constructor; [now repeat split|exact IH].
Qed.

Lemma accumulate_le (sub1 sub2 : dict num) :
  dict_le sub1 sub2 ->
  forall raw1 raw2 r1 r2,
    dict_le raw1 raw2 ->
    accumulate raw1 sub1 = Ok r1 -> accumulate raw2 sub2 = Ok r2 ->
    dict_le r1 r2.
Proof.
  unfold accumulate.
  induction 1 as [|[k1 q1] [k2 q2] sub1 sub2 (E & L & N) _ IH];
    intros raw1 raw2 r1 r2 Hraw E1 E2; simpl in *.
  - injection E1 as <-. injection E2 as <-. exact Hraw.
  - subst k2.
    apply bind_ok in E1 as (c1 & C1 & E1), E2 as (c2 & C2 & E2).
    apply bind_ok in C1 as (v1 & V1 & C1), C2 as (v2 & V2 & C2).
    injection C1 as <-. injection C2 as <-.
    destruct (dict_le_get_or raw1 raw2 k1 Hraw) as [Lg Ng].
    destruct (py_add_mono _ _ _ _ _ _ Ng N Lg L V1 V2) as [Lv Nv].
    apply (IH (dict_set raw1 k1 v1) (dict_set raw2 k1 v2)); try assumption.
    now apply dict_le_set.
Qed.

(** *** Adjusted totals dominate ideal totals *)

Lemma multiplier_ge_one (diff adjusted_level : Z) :
  exists w, get_fail_multiplier diff adjusted_level = Finite w /\ 1 * scale <= w.
Proof.
  unfold get_fail_multiplier.
  destruct (_ <=? 0); [|destruct (_ <=? 3); [|destruct (_ <=? 6)]];
    eexists; (split; [vm_compute; reflexivity|]);
    apply Z.leb_le; vm_compute; reflexivity.
Qed.

Section Dominance.

Variable find_recipe_url : pystr -> option pystr.
Variable scrape_recipe : pystr -> option Recipe.t.
Hypothesis valid : valid_recipes scrape_recipe.

Lemma lookup_scraped (name : pystr) (recipe : Recipe.t) :
  lookup find_recipe_url scrape_recipe name = Some recipe ->
  exists url, scrape_recipe url = Some recipe.
Proof.
  unfold lookup. destruct (find_recipe_url name) as [url|]; [|discriminate].
  destruct (str_falsy url); [discriminate|eauto].
Qed.

Lemma crafts_mono (n1 n2 : Z) (recipe : Recipe.t) (level : Z) (c1 c2 : num) :
  0 <= n1 <= n2 ->
  py_mul (Int n1) (multiplier recipe level false) = Ok c1 ->
  py_mul (Int n2) (multiplier recipe level true) = Ok c2 ->
  exists f1 f2, c1 = Float f1 /\ c2 = Float f2 /\ fle f1 f2 /\ fnonneg f1.
Proof.
  intros H E1 E2. unfold multiplier, py_mul in *. cbn [as_float] in *.
  apply bind_ok in E1 as (a1 & A1 & E1), E2 as (a2 & A2 & E2).
  cbn [bind] in *. injection E1 as <-. injection E2 as <-.
  destruct (to_float_mono n1 n2 a1 a2 H A1 A2) as [L N].
  apply to_float_finite in A1 as [_ (u1 & ->)], A2 as [_ (u2 & ->)].
  apply fle_finite in L. apply fle_finite in N.
  destruct (multiplier_ge_one (Recipe.diff recipe) (level + 1)) as (w & -> & Hw).
  pose proof scale_pos.
  exists (fmul (Finite u1) (fint 1)), (fmul (Finite u2) (Finite w)).
  split; [reflexivity|]. split; [reflexivity|].
  unfold fint. apply fmul_mono_finite; lia.
Qed.

Lemma sub_needed_mono (qty : Z) (f1 f2 : pyfloat) (s1 s2 : num) :
  1 <= qty -> fnonneg f1 -> fle f1 f2 ->
  py_mul (Int qty) (Float f1) = Ok s1 ->
  py_mul (Int qty) (Float f2) = Ok s2 ->
  num_le s1 s2 /\ num_nonneg s1.
Proof.
  intros Hq N L E1 E2. unfold py_mul in *. cbn [as_float] in *.
  apply bind_ok in E1 as (a & A & E1), E2 as (a' & A' & E2).
  rewrite A in A'. injection A' as <-.
  cbn [bind] in *. injection E1 as <-. injection E2 as <-.
  destruct (to_float_pos qty a Hq A) as (v & -> & Hv).
  simpl. now apply fmul_mono_r.
Qed.

Lemma compute_raw_dominates (fuel : nat) :
  forall name slug q1 q2 level r1 r2,
    num_nonneg q1 -> num_le q1 q2 ->
    compute_raw find_recipe_url scrape_recipe fuel name slug q1 level false = Ok r1 ->
    compute_raw find_recipe_url scrape_recipe fuel name slug q2 level true = Ok r2 ->
    dict_le r1 r2.
Proof.
  induction fuel as [|fuel IH]; intros name slug q1 q2 level r1 r2 N L;
    [discriminate|].
  rewrite !compute_raw_unfold.
  destruct (lookup _ _ name) as [recipe|] eqn:Hl.
  - destruct (lookup_scraped _ _ Hl) as (url & Hs).
    destruct (valid url recipe Hs) as [Hy Hq].
    intros E1 E2.
    apply bind_ok in E1 as (n1 & N1 & E1), E2 as (n2 & N2 & E2).
    apply bind_ok in E1 as (c1 & C1 & E1), E2 as (c2 & C2 & E2).
    pose proof (ceil_div_mono _ _ _ _ _ Hy N L N1 N2) as Hn.
    destruct (crafts_mono _ _ _ _ _ _ Hn C1 C2) as (f1 & f2 & -> & -> & Lf & Nf).
    revert E1 E2. apply foldM_rel; [|constructor].
    intros a1 a2 [sub_name info] s1 s2 Hin Ha S1 S2.
    unfold ingredient_step in S1, S2. cbn [fst snd] in *.
    apply bind_ok in S1 as (m1 & M1 & S1), S2 as (m2 & M2 & S2).
    apply bind_ok in S1 as (t1 & T1 & S1), S2 as (t2 & T2 & S2).
    rewrite Forall_forall in Hq. specialize (Hq _ Hin). cbn [snd] in Hq.
    destruct (sub_needed_mono _ _ _ _ _ Hq Nf Lf M1 M2) as [Lm Nm].
    pose proof (IH _ _ _ _ _ _ _ Nm Lm T1 T2) as Ht.
    exact (accumulate_le _ _ Ht _ _ _ _ Ha S1 S2).
  - intros E1 E2. injection E1 as <-. injection E2 as <-.
    constructor; [|constructor]. now repeat split.
Qed.

End Dominance.

(** C9.  Adjusted totals dominate ideal totals: when every recipe yields at
    least one unit and needs at least one unit of each ingredient, and the
    needed quantity is positive, the mapping returned with the adjustment
    enabled has the same key set as the one returned with it disabled, and
    under every slug its quantity is at least the ideal one. *)
Theorem adjusted_dominates_ideal
    (find_recipe_url : pystr -> option pystr)
    (scrape_recipe : pystr -> option Recipe.t)
    (fuel : nat) (name slug : pystr) (q level : Z)
    (ideal adjusted : dict num) :
  valid_recipes scrape_recipe ->
  0 < q ->
  compute_raw find_recipe_url scrape_recipe fuel name slug (Int q) level false
  = Ok ideal ->
  compute_raw find_recipe_url scrape_recipe fuel name slug (Int q) level true
  = Ok adjusted ->
  (forall k, In k (dict_keys ideal) <-> In k (dict_keys adjusted))
  /\ (forall k vi,
        dict_get ideal k = Some vi ->
        exists va, dict_get adjusted k = Some va /\ num_le vi va).
Proof.
  intros valid Hq E1 E2.
  assert (H : dict_le ideal adjusted).
  { apply (compute_raw_dominates find_recipe_url scrape_recipe valid
             fuel name slug (Int q) (Int q) level); simpl; auto; lia. }
  split.
  - intros k. now rewrite (dict_le_keys _ _ H).
  - intros k vi Hk. apply (dict_le_get _ _ k) in H. rewrite Hk in H.
    destruct (dict_get adjusted k) as [va|]; [|contradiction].
    exists va. split; [reflexivity|apply H].
Qed.

Lemma scenario_valid : valid_recipes Scenario.scrape_recipe.
Proof.
  intros url recipe. unfold Scenario.scrape_recipe.
  destruct (str_eqb url Scenario.root_url); [|discriminate].
  intros E. injection E as <-. simpl. split; [lia|].
  repeat constructor. simpl. lia.
Qed.

(** The hypotheses of [adjusted_dominates_ideal] are met by the scenario. *)
Lemma adjusted_dominates_ideal_witness :
  (forall k, In k (dict_keys [(str "A", Float (fint 15))])
             <-> In k (dict_keys [(str "A", Float (fdiv (fint 15) (literal 92 100)))]))
  /\ (forall k vi,
        dict_get [(str "A", Float (fint 15))] k = Some vi ->
        exists va,
          dict_get [(str "A", Float (fdiv (fint 15) (literal 92 100)))] k = Some va
          /\ num_le vi va).
Proof.
  apply (adjusted_dominates_ideal Scenario.find_recipe_url
           Scenario.scrape_recipe 2 (str "Root") (str "") 10 5).
  - exact scenario_valid.
  - lia.
  - vm_compute. reflexivity.
  - vm_compute. reflexivity.
Defined.

(* ================================================================== *)
(** ** Reordering the ingredients of a recipe *)

Lemma zero_exact : to_float 0 = Ok (Finite 0).
Proof. vm_compute. reflexivity. Qed.

(** Adding a float to an accumulated total never raises. *)
Lemma py_add_float (x : num) (f : pyfloat) :
  x = Int 0 \/ (exists g, x = Float g) ->
  exists h, py_add x (Float f) = Ok (Float h).
Proof.
  intros [->|(g & ->)]; unfold py_add; cbn [as_float].
  - rewrite zero_exact. cbn [bind]. eauto.
  - cbn [bind]. eauto.
Qed.

Lemma dict_set_floats (d : dict num) (k : pystr) (f : pyfloat) :
  floats d -> floats (dict_set d k (Float f)).
Proof.
  unfold floats. induction 1 as [|[k' v'] d H Hd IH]; simpl.
  - repeat constructor. simpl. eauto.
  - destruct (str_eqb k' k); constructor; simpl; eauto.
Qed.

Lemma dict_get_or_floats (d : dict num) (k : pystr) :
  floats d ->
  dict_get_or d k (Int 0) = Int 0 \/ exists g, dict_get_or d k (Int 0) = Float g.
Proof.
  unfold dict_get_or, floats.
  induction 1 as [|[k' v'] d H _ IH]; simpl; [auto|].
  destruct (str_eqb k' k); [right; exact H|exact IH].
Qed.

(** Accumulating a mapping of floats succeeds and adds its keys. *)
Lemma accumulate_floats (sub_raw : dict num) :
  floats sub_raw ->
  forall raw, floats raw ->
    exists r, accumulate raw sub_raw = Ok r
              /\ floats r
              /\ forall k, In k (dict_keys r)
                           <-> In k (dict_keys raw) \/ In k (dict_keys sub_raw).
Proof.
  unfold accumulate.
  induction 1 as [|[k q] sub_raw (f & Hq) _ IH]; intros raw Hraw; simpl in *.
  - exists raw. firstorder.
  - subst q.
    destruct (py_add_float _ f (dict_get_or_floats raw k Hraw)) as (h & ->).
    cbn [bind].
    destruct (IH (dict_set raw k (Float h)) (dict_set_floats _ _ _ Hraw))
      as (r & -> & Fr & Kr).
    exists r. split; [reflexivity|]. split; [exact Fr|].
    intros k0. rewrite Kr, dict_set_keys. intuition.
Qed.

Lemma py_mul_int_float (a : Z) (m : pyfloat) (c : num) :
  py_mul (Int a) (Float m) = Ok c -> exists f, c = Float f.
Proof.
  unfold py_mul. cbn [as_float]. intros E.
  apply bind_ok in E as (x & _ & E). cbn [bind] in E.
  injection E as <-. eauto.
Qed.

Lemma multiplier_float (recipe : Recipe.t) (level : Z) (apply_fail : bool) :
  exists m, multiplier recipe level apply_fail = Float m.
Proof. unfold multiplier. destruct apply_fail; eauto. Qed.

Section Reordering.

Variable find_recipe_url : pystr -> option pystr.

Lemma raw_leaves_unfold (scrape_recipe : pystr -> option Recipe.t)
    (fuel : nat) (name slug : pystr) (q : num) (level : Z) (apply_fail : bool) :
  raw_leaves find_recipe_url scrape_recipe (S fuel) name slug q level apply_fail
  = match lookup find_recipe_url scrape_recipe name with
    | None => Ok [(slug, q)]
    | Some recipe =>
        n <- ceil_div q (Int (Recipe.yield_per recipe)) ;;
        crafts <- py_mul (Int n) (multiplier recipe level apply_fail) ;;
        subs <- mapM (leaf_step find_recipe_url scrape_recipe fuel crafts level apply_fail)
                  (Recipe.ingredients recipe) ;;
        Ok (List.concat subs)
    end.
Proof. reflexivity. Qed.

(** The keys of the mapping are the slugs of the leaves, and the mapping
    is returned exactly when the leaves are. *)
Lemma compute_raw_leaves (scrape_recipe : pystr -> option Recipe.t) (fuel : nat) :
  forall name slug q level apply_fail,
    (forall raw,
        compute_raw find_recipe_url scrape_recipe fuel name slug q level
          apply_fail = Ok raw ->
        exists leaves,
          raw_leaves find_recipe_url scrape_recipe fuel name slug q level
            apply_fail = Ok leaves
          /\ (forall k, In k (dict_keys raw) <-> In k (map fst leaves))
          /\ ((exists f, q = Float f) -> floats raw))
    /\ (forall leaves,
           raw_leaves find_recipe_url scrape_recipe fuel name slug q level
             apply_fail = Ok leaves ->
           exists raw,
             compute_raw find_recipe_url scrape_recipe fuel name slug q level
               apply_fail = Ok raw).
Proof.
  induction fuel as [|fuel IH]; intros name slug q level flag;
    [split; discriminate|].
  rewrite compute_raw_unfold, raw_leaves_unfold.
  destruct (lookup _ _ name) as [recipe|].
  2:{ split.
      - intros raw E. injection E as <-. exists [(slug, q)].
        split; [reflexivity|]. split; [reflexivity|].
        intros Hf. repeat constructor. exact Hf.
      - intros leaves _. eauto. }
  (* the loop over the ingredients, from any accumulator of floats *)
  assert (Loop : forall (c : pyfloat) l acc,
             floats acc ->
             (forall r,
                 foldM (ingredient_step find_recipe_url scrape_recipe fuel
                          (Float c) level flag) l acc = Ok r ->
                 exists subs,
                   mapM (leaf_step find_recipe_url scrape_recipe fuel (Float c) level flag) l
                   = Ok subs
                   /\ floats r
                   /\ forall k, In k (dict_keys r)
                                <-> In k (dict_keys acc)
                                    \/ In k (map fst (List.concat subs)))
             /\ (forall subs,
                    mapM (leaf_step find_recipe_url scrape_recipe fuel (Float c) level flag) l
                    = Ok subs ->
                    exists r,
                      foldM (ingredient_step find_recipe_url scrape_recipe fuel
                               (Float c) level flag) l acc = Ok r)).
  { intros c l. induction l as [|entry l IHl]; intros acc Hacc.
    - split.
      + intros r E. injection E as <-. exists []. simpl. tauto.
      + intros subs _. simpl. eauto.
    - split.
      + intros r E. simpl in E.
        apply bind_ok in E as (acc1 & E1 & E).
        unfold ingredient_step in E1.
        apply bind_ok in E1 as (sn & Esn & E1).
        apply bind_ok in E1 as (sraw & Esraw & E1).
        destruct (py_mul_int_float _ _ _ Esn) as (f & ->).
        destruct (proj1 (IH _ _ _ _ _) sraw Esraw) as (sl & Esl & Ksl & Fsl).
        specialize (Fsl (ex_intro _ f eq_refl)).
        destruct (accumulate_floats sraw Fsl acc Hacc) as (acc1' & Eacc & Facc & Kacc).
        rewrite Eacc in E1. injection E1 as <-.
        destruct (proj1 (IHl acc1' Facc) r E) as (subs & Esubs & Fr & Kr).
        exists (sl :: subs). simpl. unfold leaf_step at 1.
        rewrite Esn. cbn [bind]. rewrite Esl. cbn [bind]. rewrite Esubs.
        split; [reflexivity|]. split; [exact Fr|].
        intros k. rewrite Kr, Kacc, Ksl, map_app, in_app_iff. tauto.
      + intros subs E.
        apply mapM_ok_cons in E as (sl & subs0 & Esl & Esubs & ->).
        unfold leaf_step in Esl.
        apply bind_ok in Esl as (sn & Esn & Esl).
        destruct (py_mul_int_float _ _ _ Esn) as (f & ->).
        destruct (proj2 (IH _ _ _ _ _) sl Esl) as (sraw & Esraw).
        destruct (proj1 (IH _ _ _ _ _) sraw Esraw) as (_ & _ & _ & Fsl).
        specialize (Fsl (ex_intro _ f eq_refl)).
        destruct (accumulate_floats sraw Fsl acc Hacc) as (acc1 & Eacc & Facc & _).
        destruct (proj2 (IHl acc1 Facc) subs0 Esubs) as (r & Er).
        exists r. simpl. unfold ingredient_step at 1.
        rewrite Esn. cbn [bind]. rewrite Esraw. cbn [bind]. rewrite Eacc.
        exact Er. }
  destruct (multiplier_float recipe level flag) as (m & Em).
  split.
  - intros raw E.
    apply bind_ok in E as (n & -> & E). cbn [bind].
    apply bind_ok in E as (crafts & Ec & E). rewrite Ec. cbn [bind].
    rewrite Em in Ec. destruct (py_mul_int_float _ _ _ Ec) as (c & ->).
    destruct (proj1 (Loop c _ [] (Forall_nil _)) raw E) as (subs & -> & Fr & Kr).
    cbn [bind]. exists (List.concat subs). split; [reflexivity|].
    split; [|auto]. intros k. rewrite Kr. simpl. tauto.
  - intros leaves E.
    apply bind_ok in E as (n & -> & E). cbn [bind].
    apply bind_ok in E as (crafts & Ec & E). rewrite Ec. cbn [bind].
    rewrite Em in Ec. destruct (py_mul_int_float _ _ _ Ec) as (c & ->).
    apply bind_ok in E as (subs & Esubs & _).
    exact (proj2 (Loop c _ [] (Forall_nil _)) subs Esubs).
Qed.

Variables scrape_recipe scrape_recipe' : pystr -> option Recipe.t.
Hypothesis same : recipes_reordered scrape_recipe scrape_recipe'.

Lemma lookup_reordered (name : pystr) :
  match lookup find_recipe_url scrape_recipe name,
        lookup find_recipe_url scrape_recipe' name with
  | Some r, Some r' => reordered r r'
  | None, None => True
  | _, _ => False
  end.
Proof.
  unfold lookup. destruct (find_recipe_url name) as [url|]; [|exact I].
  destruct (str_falsy url); [exact I|apply same].
Qed.

(** Reordering ingredient lists permutes the leaves and leaves their
    quantities alone. *)
Lemma raw_leaves_reordered (fuel : nat) :
  forall name slug q level apply_fail leaves,
    raw_leaves find_recipe_url scrape_recipe fuel name slug q level apply_fail
    = Ok leaves ->
    exists leaves',
      raw_leaves find_recipe_url scrape_recipe' fuel name slug q level apply_fail
      = Ok leaves'
      /\ Permutation leaves leaves'.
Proof.
  induction fuel as [|fuel IH]; intros name slug q level flag leaves;
    [discriminate|].
  rewrite !raw_leaves_unfold.
  pose proof (lookup_reordered name) as Hl.
  destruct (lookup _ scrape_recipe name) as [r|],
           (lookup _ scrape_recipe' name) as [r'|]; try contradiction.
  2:{ intros E. exists leaves. split; [exact E|reflexivity]. }
  destruct Hl as (_ & _ & Hd & Hy & _ & Hp).
  assert (Hm : multiplier r' level flag = multiplier r level flag)
    by (unfold multiplier; now rewrite Hd).
  rewrite <- Hy, Hm.
  intros E. apply bind_ok in E as (n & -> & E). cbn [bind].
  apply bind_ok in E as (crafts & -> & E). cbn [bind].
  apply bind_ok in E as (subs & Esubs & E). injection E as <-.
  destruct (mapM_pointwise
              (leaf_step find_recipe_url scrape_recipe fuel crafts level flag)
              (leaf_step find_recipe_url scrape_recipe' fuel crafts level flag)
              (Recipe.ingredients r)) with (bs := subs)
    as (subs1 & E1 & P1); [|exact Esubs|].
  { intros entry sl _ Esl. unfold leaf_step in *.
    apply bind_ok in Esl as (sn & -> & Esl). cbn [bind]. now apply IH. }
  destruct (mapM_permutation _ _ _ Hp subs1 E1) as (subs2 & E2 & P2).
  rewrite E2. cbn [bind]. exists (List.concat subs2).
  split; [reflexivity|]. now transitivity (List.concat subs1).
Qed.

End Reordering.

(** *** Sums of integer-valued doubles are exact up to [2^53] *)

Lemma scale_split (k : Z) : 0 <= k <= 1074 -> scale = 2 ^ (1074 - k) * 2 ^ k.
Proof.
  intros H. unfold scale. rewrite <- Z.pow_add_r by lia. f_equal. lia.
Qed.

(** A multiple of the spacing rounds to itself. *)
Lemma round_units_multiple (m a : Z) :
  0 <= a -> a = m * 2 ^ binade a 1 -> round_units a 1 = a.
Proof.
  intros Ha E. unfold round_units.
  pose proof (binade_nonneg a 1).
  assert (0 < 2 ^ binade a 1) by (apply pow2_pos; lia).
  rewrite E at 1. rewrite Z.mul_1_l, rne_exact by assumption.
  now rewrite <- E.
Qed.

Lemma round_units_whole (N : Z) :
  0 <= N <= 2 ^ 53 -> round_units (N * scale) 1 = N * scale.
Proof.
  intros HN. pose proof scale_pos as Hs.
  assert (Ha : 0 <= N * scale) by nia.
  destruct (binade_spec (N * scale) 1 ltac:(lia)) as [U L].
  rewrite Z.abs_eq, Z.mul_1_l in U, L by assumption.
  pose proof (binade_nonneg (N * scale) 1) as Hk.
  set (k := binade (N * scale) 1) in *.
  destruct (Z_le_gt_dec k 1074) as [Hle|Hgt].
  - apply (round_units_multiple (N * 2 ^ (1074 - k))); [assumption|].
    fold k. rewrite (scale_split k) at 1 by lia. ring.
  - (* the spacing exceeds one: [N] is [2^53] and [k] is 1075 *)
    specialize (L ltac:(lia)).
    assert (E : 2 ^ (52 + k) = 2 ^ (k - 1074 + 52) * scale).
    { unfold scale. rewrite <- Z.pow_add_r by lia. f_equal. lia. }
    assert (P : 2 ^ 53 <= 2 ^ (k - 1074 + 52)) by (apply pow2_le; lia).
    assert (N = 2 ^ 53) by nia.
    assert (Q : 2 ^ (k - 1074 + 52) <= 2 ^ 53) by nia.
    assert (k = 1075).
    { destruct (Z_le_gt_dec k 1075); [lia|exfalso].
      assert (2 ^ 54 <= 2 ^ (k - 1074 + 52)) by (apply pow2_le; lia).
      assert (2 ^ 53 < 2 ^ 54) by (apply Z.pow_lt_mono_r; lia). lia. }
    apply (round_units_multiple (2 ^ 52)); [assumption|].
    fold k. subst N k. unfold scale. rewrite <- !Z.pow_add_r by lia.
    reflexivity.
Qed.

Lemma limit_finite : 2 ^ 53 * scale <= max_units.
Proof. apply Z.leb_le. vm_compute. reflexivity. Qed.

Lemma round64_whole (N : Z) :
  0 <= N <= 2 ^ 53 -> round64 (N * scale) 1 = Finite (N * scale).
Proof.
  intros HN. pose proof scale_pos. pose proof limit_finite.
  pose proof max_units_pos.
  unfold round64. rewrite round_units_whole by assumption.
  assert (N * scale <= 2 ^ 53 * scale) by nia.
  destruct (max_units <? N * scale) eqn:E1; [apply Z.ltb_lt in E1; lia|].
  destruct (N * scale <? - max_units) eqn:E2; [apply Z.ltb_lt in E2; nia|].
  reflexivity.
Qed.

(** Adding two non-negative integer-valued doubles is exact as long as
    the sum does not exceed [2^53]. *)
Lemma fadd_whole (a b : Z) :
  0 <= a -> 0 <= b -> a + b <= 2 ^ 53 ->
  fadd (Finite (a * scale)) (Finite (b * scale)) = Finite ((a + b) * scale).
Proof.
  intros Ha Hb H. simpl.
  replace (a * scale + b * scale) with ((a + b) * scale) by ring.
  apply round64_whole. lia.
Qed.

(** *** Lookups after [dict_set] and [accumulate] *)

Lemma mem_in (k : pystr) (l : list pystr) : mem k l = true <-> In k l.
Proof.
  unfold mem. rewrite existsb_exists. split.
  - intros (x & Hx & E). apply str_eqb_eq in E. now subst.
  - intros H. exists k. split; [exact H|apply str_eqb_refl].
Qed.

Lemma dict_get_none {V} (d : dict V) (k : pystr) :
  dict_get d k = None <-> ~ In k (dict_keys d).
Proof.
  rewrite dict_get_in_keys. destruct (dict_get d k) as [v|]; split;
    try discriminate; try tauto.
  - intros H. exfalso. apply H. eauto.
  - intros _ (v & E). discriminate.
Qed.

Lemma dict_get_set {V} (d : dict V) (k k' : pystr) (v : V) :
  dict_get (dict_set d k v) k'
  = if str_eqb k k' then Some v else dict_get d k'.
Proof.
  induction d as [|[k0 v0] d IH]; simpl.
  - reflexivity.
  - destruct (str_eqb k0 k) eqn:E; simpl.
    + apply str_eqb_eq in E. subst k0.
      destruct (str_eqb k k'); reflexivity.
    + destruct (str_eqb k0 k') eqn:E'; [|exact IH].
      apply str_eqb_eq in E'. subst k0. now rewrite str_eqb_sym, E.
Qed.

Lemma dict_set_nodup {V} (d : dict V) (k : pystr) (v : V) :
  NoDup (dict_keys d) -> NoDup (dict_keys (dict_set d k v)).
Proof.
  induction d as [|[k0 v0] d IH]; simpl; intros H.
  - repeat constructor. intros [].
  - inversion H as [|? ? Hn Hd]; subst.
    destruct (str_eqb k0 k) eqn:E; simpl; [exact H|].
    constructor; [|now apply IH].
    rewrite dict_set_keys. intros [Hin| -> ]; [contradiction|].
    now rewrite str_eqb_refl in E.
Qed.

Lemma dict_get_in {V} (d : dict V) (k : pystr) (v : V) :
  NoDup (dict_keys d) -> In (k, v) d -> dict_get d k = Some v.
Proof.
  induction d as [|[k0 v0] d IH]; simpl; intros H Hin; [contradiction|].
  inversion H as [|? ? Hn Hd]; subst.
  destruct Hin as [E|Hin].
  - injection E as -> ->. now rewrite str_eqb_refl.
  - destruct (str_eqb k0 k) eqn:E; [|now apply IH].
    apply str_eqb_eq in E. subst. exfalso. apply Hn.
    change k with (fst (k, v)). now apply in_map.
Qed.

(** What [accumulate] leaves under each key. *)
Lemma accumulate_spec (sub_raw : dict num) :
  NoDup (dict_keys sub_raw) ->
  forall raw r,
    accumulate raw sub_raw = Ok r ->
    forall k,
      match dict_get sub_raw k with
      | Some q =>
          exists v, py_add (dict_get_or raw k (Int 0)) q = Ok v
                    /\ dict_get r k = Some v
      | None => dict_get r k = dict_get raw k
      end.
Proof.
  unfold accumulate.
  induction sub_raw as [|[k0 q0] sub IH]; intros Hn raw r E k; simpl in *.
  - now injection E as <-.
  - inversion Hn as [|? ? Hk0 Hsub]; subst.
    apply bind_ok in E as (raw1 & E1 & E).
    apply bind_ok in E1 as (v0 & V0 & E1). injection E1 as <-.
    specialize (IH Hsub _ _ E k).
    destruct (str_eqb k0 k) eqn:Ek.
    + apply str_eqb_eq in Ek. subst k0.
      apply dict_get_none in Hk0. rewrite Hk0 in IH.
      exists v0. split; [exact V0|].
      now rewrite IH, dict_get_set, str_eqb_refl.
    + destruct (dict_get sub k) as [q|].
      * destruct IH as (v & Hv & Hr). exists v. split; [|exact Hr].
        unfold dict_get_or in *. now rewrite dict_get_set, Ek in Hv.
      * now rewrite IH, dict_get_set, Ek.
Qed.

Lemma accumulate_nodup (sub_raw : dict num) :
  forall raw r,
    NoDup (dict_keys raw) -> accumulate raw sub_raw = Ok r ->
    NoDup (dict_keys r).
Proof.
  unfold accumulate.
  induction sub_raw as [|[k0 q0] sub IH]; intros raw r Hn E; simpl in *.
  - now injection E as <-.
  - apply bind_ok in E as (raw1 & E1 & E).
    apply bind_ok in E1 as (v0 & V0 & E1). injection E1 as <-.
    apply (IH _ _ (dict_set_nodup _ _ _ Hn) E).
Qed.

(** *** Exact totals *)

Lemma total_app (k : pystr) (l1 l2 : list (pystr * num)) :
  total k (l1 ++ l2) = total k l1 + total k l2.
Proof.
  induction l1 as [|[k' v] l1 IH]; simpl; [reflexivity|]. rewrite IH. ring.
Qed.

Lemma total_whole (k : pystr) (leaves : list (pystr * num)) :
  wholes leaves -> exists N, 0 <= N /\ total k leaves = N * scale.
Proof.
  induction 1 as [|[k' v] leaves (M & HM & Hv) _ (N & HN & IH)]; simpl in *.
  - exists 0. split; [lia|reflexivity].
  - subst v. rewrite IH. destruct (str_eqb k' k); simpl.
    + exists (M + N). split; [lia|ring].
    + exists N. split; [lia|reflexivity].
Qed.

Lemma total_absent (k : pystr) (leaves : list (pystr * num)) :
  mem k (map fst leaves) = false -> total k leaves = 0.
Proof.
  unfold mem. induction leaves as [|[k' v] leaves IH]; simpl; [reflexivity|].
  rewrite orb_false_iff. intros [E H]. rewrite str_eqb_sym, E. simpl. auto.
Qed.

Lemma total_permutation (k : pystr) (l1 l2 : list (pystr * num)) :
  Permutation l1 l2 -> total k l1 = total k l2.
Proof.
  induction 1 as [|[k' v] l1 l2 _ IH|[k1 v1] [k2 v2] l|l1 l2 l3 _ IH1 _ IH2];
    simpl; lia.
Qed.

Lemma mem_app (k : pystr) (l1 l2 : list pystr) :
  mem k (l1 ++ l2) = mem k l1 || mem k l2.
Proof. unfold mem. apply existsb_app. Qed.

Lemma mem_permutation (k : pystr) (l1 l2 : list pystr) :
  Permutation l1 l2 -> mem k l1 = mem k l2.
Proof.
  intros P. destruct (mem k l1) eqn:E1, (mem k l2) eqn:E2; try reflexivity.
  - apply mem_in in E1. apply (Permutation_in _ P) in E1.
    apply mem_in in E1. congruence.
  - apply mem_in in E2. apply (Permutation_in _ (Permutation_sym P)) in E2.
    apply mem_in in E2. congruence.
Qed.

Lemma exact_for_floats (raw : dict num) (leaves : list (pystr * num)) :
  exact_for raw leaves -> floats raw.
Proof.
  intros [Hn H]. apply Forall_forall. intros [k v] Hin.
  apply (dict_get_in _ _ _ Hn) in Hin. rewrite H in Hin.
  destruct (mem k _); [|discriminate]. injection Hin as <-. simpl. eauto.
Qed.

Lemma exact_for_nil : exact_for [] [].
Proof. split; [constructor|reflexivity]. Qed.

(** Accumulating exact totals gives exact totals, within the limit. *)
Lemma accumulate_exact (raw sub_raw : dict num)
    (done new : list (pystr * num)) :
  exact_for raw done -> exact_for sub_raw new ->
  wholes done -> wholes new -> within_limit (done ++ new) ->
  exists r, accumulate raw sub_raw = Ok r /\ exact_for r (done ++ new).
Proof.
  intros Hraw Hsub Wd Wn Hlim. pose proof scale_pos as Hs.
  destruct (accumulate_floats sub_raw (exact_for_floats _ _ Hsub)
              raw (exact_for_floats _ _ Hraw)) as (r & Er & _ & _).
  exists r. split; [exact Er|].
  destruct Hraw as [Nraw Graw], Hsub as [Nsub Gsub].
  split; [exact (accumulate_nodup _ _ _ Nraw Er)|].
  intros k. pose proof (accumulate_spec sub_raw Nsub raw r Er k) as Hk.
  specialize (Hlim k). rewrite total_app in *.
  rewrite map_app, mem_app. rewrite Gsub in Hk.
  destruct (total_whole k done Wd) as (a & Ha & Ta).
  destruct (total_whole k new Wn) as (b & Hb & Tb).
  destruct (mem k (map fst new)) eqn:Mn.
  - destruct Hk as (v & Hv & ->). rewrite orb_true_r. f_equal.
    unfold dict_get_or in Hv. rewrite Graw in Hv.
    assert (Hab : a + b <= 2 ^ 53) by nia.
    destruct (mem k (map fst done)) eqn:Md.
    + unfold py_add in Hv. cbn [as_float bind] in Hv.
      rewrite Ta, Tb, fadd_whole in Hv by assumption.
      injection Hv as <-. rewrite Ta, Tb. do 2 f_equal. ring.
    + unfold py_add in Hv. cbn [as_float] in Hv.
      rewrite zero_exact in Hv. cbn [bind] in Hv.
      rewrite (total_absent _ _ Md).
      rewrite Tb in Hv. change (Finite 0) with (Finite (0 * scale)) in Hv.
      rewrite fadd_whole in Hv by lia.
      injection Hv as <-. now rewrite Tb.
  - rewrite orb_false_r, Hk, Graw, (total_absent _ _ Mn), Z.add_0_r.
    reflexivity.
Qed.

Lemma wholes_app (l1 l2 : list (pystr * num)) :
  wholes (l1 ++ l2) <-> wholes l1 /\ wholes l2.
Proof. apply Forall_app. Qed.

Lemma total_nonneg (k : pystr) (leaves : list (pystr * num)) :
  wholes leaves -> 0 <= total k leaves.
Proof.
  intros W. destruct (total_whole k leaves W) as (N & HN & ->).
  pose proof scale_pos. nia.
Qed.

Section ExactTotals.

Variable find_recipe_url : pystr -> option pystr.
Variable scrape_recipe : pystr -> option Recipe.t.

(** When the contributions are integer-valued and sum to at most [2^53]
    per slug, no addition rounds: the mapping holds the exact sums. *)
Lemma compute_raw_exact (fuel : nat) :
  forall name slug q level apply_fail raw leaves,
    compute_raw find_recipe_url scrape_recipe fuel name slug q level apply_fail
    = Ok raw ->
    raw_leaves find_recipe_url scrape_recipe fuel name slug q level apply_fail
    = Ok leaves ->
    wholes leaves -> within_limit leaves ->
    exact_for raw leaves.
Proof.
  induction fuel as [|fuel IH]; intros name slug q level flag raw leaves;
    [discriminate|].
  rewrite compute_raw_unfold, raw_leaves_unfold.
  destruct (lookup _ _ name) as [recipe|].
  2:{ intros E1 E2 W _. injection E1 as <-. injection E2 as <-.
      inversion W as [|? ? (N & HN & Hq) _]; subst. simpl in Hq. subst q.
      split; [repeat constructor; intros []|].
      intros k. simpl. unfold mem. simpl. rewrite (str_eqb_sym k slug).
      destruct (str_eqb slug k); simpl; [|reflexivity].
      now rewrite Z.add_0_r. }
  intros E1 E2.
  apply bind_ok in E1 as (n & En & E1). rewrite En in E2. cbn [bind] in E2.
  apply bind_ok in E1 as (crafts & Ec & E1). rewrite Ec in E2. cbn [bind] in E2.
  apply bind_ok in E2 as (subs & Esubs & E2). injection E2 as <-.
  assert (Loop : forall l acc done r ss,
             exact_for acc done -> wholes done ->
             foldM (ingredient_step find_recipe_url scrape_recipe fuel crafts
                      level flag) l acc = Ok r ->
             mapM (leaf_step find_recipe_url scrape_recipe fuel crafts level
                     flag) l = Ok ss ->
             wholes (List.concat ss) ->
             within_limit (done ++ List.concat ss) ->
             exact_for r (done ++ List.concat ss)).
  { intros l. induction l as [|entry l IHl];
      intros acc done r ss Hacc Wd F1 F2 W Hlim.
    - injection F1 as <-. injection F2 as <-. simpl. now rewrite app_nil_r.
    - simpl in F1. apply bind_ok in F1 as (acc1 & S1 & F1).
      apply mapM_ok_cons in F2 as (sl & subs0 & Esl & Esubs0 & ->).
      simpl in W, Hlim. apply wholes_app in W as [Wsl W0].
      unfold ingredient_step in S1. unfold leaf_step in Esl.
      apply bind_ok in S1 as (sn & Esn & S1). rewrite Esn in Esl.
      cbn [bind] in Esl.
      apply bind_ok in S1 as (sraw & Esraw & S1).
      assert (Hsl : exact_for sraw sl).
      { apply (IH _ _ _ _ _ _ _ Esraw Esl Wsl). intros k.
        specialize (Hlim k). rewrite !total_app in Hlim.
        pose proof (total_nonneg k done Wd).
        pose proof (total_nonneg k (List.concat subs0) W0). lia. }
      destruct (accumulate_exact acc sraw done sl Hacc Hsl Wd Wsl)
        as (acc1' & Eacc & Hacc1).
      { intros k. specialize (Hlim k). rewrite !total_app in *.
        pose proof (total_nonneg k (List.concat subs0) W0). lia. }
      rewrite Eacc in S1. injection S1 as <-.
      simpl. rewrite app_assoc. apply (IHl acc1'); try assumption.
      + apply wholes_app. now split.
      + now rewrite <- app_assoc. }
  intros W Hlim.
  apply (Loop _ [] [] raw subs exact_for_nil (Forall_nil _) E1 Esubs W Hlim).
Qed.

End ExactTotals.

(** *** With the adjustment disabled the contributions are integer-valued *)

(** Rounding depends on the ratio only. *)
Lemma round_units_ratio (a c : Z) :
  0 <= a -> 0 < c -> round_units (a * c) c = round_units a 1.
Proof.
  intros Ha Hc. apply Z.le_antisymm; apply round_units_mono; nia.
Qed.

(** A non-negative integer rounds to an integer. *)
Lemma round_units_integral (N : Z) :
  0 <= N -> exists M, 0 <= M /\ round_units (N * scale) 1 = M * scale.
Proof.
  intros HN. pose proof scale_pos as Hs.
  assert (Ha : 0 <= N * scale) by nia.
  pose proof (binade_nonneg (N * scale) 1) as Hk.
  destruct (Z_le_gt_dec (binade (N * scale) 1) 1074) as [Hle|Hgt].
  - exists N. split; [assumption|].
    apply (round_units_multiple (N * 2 ^ (1074 - binade (N * scale) 1)));
      [assumption|].
    rewrite (scale_split (binade (N * scale) 1)) at 1 by lia. ring.
  - unfold round_units.
    set (k := binade (N * scale) 1) in *.
    exists (rne (N * scale) (1 * 2 ^ k) * 2 ^ (k - 1074)). split.
    + assert (0 < 2 ^ k) by (apply pow2_pos; lia).
      assert (0 < 2 ^ (k - 1074)) by (apply pow2_pos; lia).
      assert (0 <= rne (N * scale) (1 * 2 ^ k)) by (apply rne_nonneg; lia).
      nia.
    + replace (2 ^ k) with (2 ^ (k - 1074) * scale) at 2; [ring|].
      unfold scale. rewrite <- Z.pow_add_r by lia. f_equal. lia.
Qed.

Lemma round64_integral (N : Z) :
  0 <= N -> whole_or_inf (Float (round64 (N * scale) 1)).
Proof.
  intros HN. pose proof scale_pos as Hs. pose proof max_units_pos as Hm.
  destruct (round_units_integral N HN) as (M & HM & E).
  unfold round64. rewrite E.
  destruct (max_units <? M * scale); [now right|].
  destruct (M * scale <? - max_units) eqn:E2; [apply Z.ltb_lt in E2; nia|].
  left. exists M. split; [assumption|reflexivity].
Qed.

Lemma to_float_whole (n : Z) (f : pyfloat) :
  0 <= n -> to_float n = Ok f -> whole (Float f).
Proof.
  intros Hn E. apply to_float_finite in E as [E (u & ->)].
  destruct (round64_integral n Hn) as [H|H]; rewrite <- E in H;
    [exact H|discriminate].
Qed.

Lemma fmul_whole (x y : pyfloat) :
  whole (Float x) -> whole_or_inf (Float y) -> fnonneg x -> fsgn x = 1 \/ y <> PosInf ->
  whole_or_inf (Float (fmul x y)).
Proof.
  intros (A & HA & Ex) Hy _ Hs. injection Ex as ->.
  pose proof scale_pos as Hp.
  destruct Hy as [(B & HB & Ey)|Ey]; injection Ey as ->.
  - simpl.
    replace (A * scale * (B * scale)) with (A * B * scale * scale) by ring.
    assert (E : round64 (A * B * scale * scale) scale
                = round64 (A * B * scale) 1).
    { unfold round64. now rewrite round_units_ratio by nia. }
    rewrite E. apply round64_integral. nia.
  - destruct Hs as [Hs|Hs]; [|congruence].
    simpl in *. rewrite Hs. now right.
Qed.

Section IdealLeaves.

Variable find_recipe_url : pystr -> option pystr.
Variable scrape_recipe : pystr -> option Recipe.t.
Hypothesis valid : valid_recipes scrape_recipe.

Lemma whole_or_inf_nonneg (q : num) :
  whole_or_inf q -> num_nonneg q /\ num_le q q.
Proof.
  pose proof scale_pos.
  intros [(N & HN & ->)| ->]; simpl; [|split; reflexivity].
  split; apply fle_finite; nia.
Qed.

(** The steps below a node, when the quantity needed at the node is not
    negative. *)
Lemma ideal_step (recipe : Recipe.t) (url : pystr) (q : num) (level n : Z)
    (crafts sub_needed : num) (entry : pystr * Ingredient.t) :
  scrape_recipe url = Some recipe ->
  num_nonneg q -> num_le q q ->
  ceil_div q (Int (Recipe.yield_per recipe)) = Ok n ->
  py_mul (Int n) (multiplier recipe level false) = Ok crafts ->
  In entry (Recipe.ingredients recipe) ->
  py_mul (Int (Ingredient.qty_per (snd entry))) crafts = Ok sub_needed ->
  whole_or_inf sub_needed.
Proof.
  intros Hs Nq Lq En Ec Hin Esn.
  destruct (valid url recipe Hs) as [Hy Hq].
  rewrite Forall_forall in Hq. specialize (Hq entry Hin). cbv beta in Hq.
  pose proof (ceil_div_mono _ _ _ _ _ Hy Nq Lq En En) as Hn.
  unfold multiplier, py_mul in Ec. cbn [as_float] in Ec.
  apply bind_ok in Ec as (a & Ea & Ec). cbn [bind] in Ec. injection Ec as <-.
  unfold py_mul in Esn. cbn [as_float] in Esn.
  apply bind_ok in Esn as (b & Eb & Esn). cbn [bind] in Esn.
  injection Esn as <-.
  pose proof (to_float_whole n a ltac:(lia) Ea) as Wa.
  pose proof (to_float_whole (Ingredient.qty_per (snd entry)) b
                ltac:(lia) Eb) as Wb.
  destruct (to_float_pos _ b Hq Eb) as (v & -> & Hv).
  assert (Wc : whole_or_inf (Float (fmul a (fint 1)))).
  { apply fmul_whole; [exact Wa| | |right; discriminate].
    - left. exists 1. split; [lia|reflexivity].
    - destruct Wa as (A & HA & Ea'). injection Ea' as ->.
      apply fle_finite. pose proof scale_pos. nia. }
  apply fmul_whole; [exact Wb|exact Wc| |left].
  - apply fle_finite. lia.
  - simpl. now apply Z.sgn_pos.
Qed.

(** With the adjustment disabled every contribution below the root is a
    non-negative integer-valued double, or [+inf] after an overflow; the
    root contributes its own quantity when it has no recipe. *)
Lemma ideal_leaves (fuel : nat) :
  forall name slug q level leaves,
    num_nonneg q -> num_le q q ->
    raw_leaves find_recipe_url scrape_recipe fuel name slug q level false
    = Ok leaves ->
    (lookup find_recipe_url scrape_recipe name = None /\ leaves = [(slug, q)])
    \/ Forall (fun e => whole_or_inf (snd e)) leaves.
Proof.
  induction fuel as [|fuel IH]; intros name slug q level leaves Nq Lq;
    [discriminate|].
  rewrite raw_leaves_unfold.
  destruct (lookup _ _ name) as [recipe|] eqn:Hl.
  2:{ intros E. injection E as <-. now left. }
  destruct (lookup_scraped _ _ _ _ Hl) as (url & Hs).
  intros E. right. apply bind_ok in E as (n & En & E).
  apply bind_ok in E as (crafts & Ec & E).
  apply bind_ok in E as (subs & Esubs & E). injection E as <-.
  assert (Loop : forall l subs,
             (forall entry, In entry l -> In entry (Recipe.ingredients recipe)) ->
             mapM (leaf_step find_recipe_url scrape_recipe fuel crafts level
                     false) l = Ok subs ->
             Forall (fun e => whole_or_inf (snd e)) (List.concat subs)).
  { intros l. induction l as [|entry l IHl]; intros ss Hall E.
    - injection E as <-. constructor.
    - apply mapM_ok_cons in E as (sl & subs0 & Esl & Es0 & ->).
      simpl. apply Forall_app. split.
      + unfold leaf_step in Esl. apply bind_ok in Esl as (sn & Esn & Esl).
        pose proof (ideal_step _ _ _ _ _ _ _ _ Hs Nq Lq En Ec
                      (Hall entry (or_introl eq_refl)) Esn) as Wsn.
        destruct (whole_or_inf_nonneg sn Wsn) as [Nsn Lsn].
        destruct (IH _ _ _ _ _ Nsn Lsn Esl) as [[_ ->]|H]; [|exact H].
        constructor; [exact Wsn|constructor].
      + apply IHl; [|exact Es0]. intros e He. apply Hall. now right. }
  apply (Loop _ subs (fun _ H => H) Esubs).
Qed.

End IdealLeaves.

(** *** Reordering *)

Section ReorderedTotals.

Variable find_recipe_url : pystr -> option pystr.
Variables scrape_recipe scrape_recipe' : pystr -> option Recipe.t.
Hypothesis same : recipes_reordered scrape_recipe scrape_recipe'.

(** Exact totals do not depend on the order of the ingredients. *)
Lemma exact_totals_reordered (fuel : nat) (name slug : pystr) (q : num)
    (level : Z) (apply_fail : bool) (raw raw' : dict num)
    (leaves : list (pystr * num)) :
  compute_raw find_recipe_url scrape_recipe fuel name slug q level apply_fail
  = Ok raw ->
  compute_raw find_recipe_url scrape_recipe' fuel name slug q level apply_fail
  = Ok raw' ->
  raw_leaves find_recipe_url scrape_recipe fuel name slug q level apply_fail
  = Ok leaves ->
  wholes leaves -> within_limit leaves ->
  forall k, dict_get raw' k = dict_get raw k.
Proof.
  intros E E' El W Hlim k.
  destruct (raw_leaves_reordered find_recipe_url scrape_recipe scrape_recipe'
              same fuel name slug q level apply_fail leaves El)
    as (leaves' & El' & P).
  assert (W' : wholes leaves').
  { unfold wholes in *. rewrite Forall_forall in *. intros e He. apply W.
    apply (Permutation_in _ (Permutation_sym P) He). }
  assert (Hlim' : within_limit leaves').
  { intros k0. rewrite <- (total_permutation k0 _ _ P). apply Hlim. }
  destruct (compute_raw_exact _ _ _ _ _ _ _ _ _ _ E El W Hlim) as [_ G].
  destruct (compute_raw_exact _ _ _ _ _ _ _ _ _ _ E' El' W' Hlim') as [_ G'].
  rewrite G, G'.
  rewrite <- (total_permutation k _ _ P).
  now rewrite <- (mem_permutation k _ _ (Permutation_map fst P)).
Qed.

End ReorderedTotals.

Lemma reorder_stores :
  recipes_reordered (Reorder.scrape_recipe Reorder.page_order)
                    (Reorder.scrape_recipe Reorder.other_order).
Proof.
  intros url. unfold Reorder.scrape_recipe.
  destruct (str_eqb url _).
  - repeat (split; [reflexivity|]). simpl.
    apply (Permutation_app_comm [Reorder.ingot] [Reorder.rod; Reorder.plate]).
  - destruct (str_eqb url _); [repeat (split; [reflexivity|]); reflexivity|].
    destruct (str_eqb url _); [repeat (split; [reflexivity|]); reflexivity|].
    exact I.
Qed.

(** C5, as stated, fails: with the adjustment enabled, one frame at level 5
    needs 6.521739130434782 ingots when the frame's ingredients are listed
    ingot, rod, plate and 6.521739130434783 when they are listed rod,
    plate, ingot.  The three contributions are the same doubles; their
    floating-point sum depends on the order in which they are added. *)
Lemma reordering_changes_totals :
  Permutation Reorder.page_order Reorder.other_order
  /\ compute_raw Reorder.find_recipe_url (Reorder.scrape_recipe Reorder.page_order)
       3 (str "Iron Frame") [] (Int 1) 5 true
     = Ok [(str "iron_ingot", Float (of_prim 0x1.a1642c8590b21p+2%float))]
  /\ compute_raw Reorder.find_recipe_url (Reorder.scrape_recipe Reorder.other_order)
       3 (str "Iron Frame") [] (Int 1) 5 true
     = Ok [(str "iron_ingot", Float (of_prim 0x1.a1642c8590b22p+2%float))]
  /\ of_prim 0x1.a1642c8590b21p+2%float <> of_prim 0x1.a1642c8590b22p+2%float.
Proof.
  split; [|split; [|split]].
  - apply (Permutation_app_comm [Reorder.ingot] [Reorder.rod; Reorder.plate]).
  - vm_compute. reflexivity.
  - vm_compute. reflexivity.
  - intros E.
    assert (H : fleb (of_prim 0x1.a1642c8590b22p+2%float)
                     (of_prim 0x1.a1642c8590b21p+2%float) = false)
      by (vm_compute; reflexivity).
    rewrite <- E in H. vm_compute in H. discriminate H.
Qed.

(** With the adjustment disabled the frame needs 4 ingots in either
    order: the contributions 1, 1 and 2 add up exactly. *)
Example ideal_frame_totals :
  compute_raw Reorder.find_recipe_url (Reorder.scrape_recipe Reorder.page_order)
    3 (str "Iron Frame") [] (Int 1) 5 false
  = Ok [(str "iron_ingot", Float (fint 4))]
  /\ compute_raw Reorder.find_recipe_url (Reorder.scrape_recipe Reorder.other_order)
       3 (str "Iron Frame") [] (Int 1) 5 false
     = Ok [(str "iron_ingot", Float (fint 4))].
Proof. split; vm_compute; reflexivity. Qed.

(** C5, amended.  Reordering the ingredient list of any recipes of the
    store changes neither whether [compute_raw] returns, nor the key set
    of the mapping it returns, nor the contributions of the leaves: the
    same (slug, quantity) pairs reach the mapping, in a permuted order,
    for both adjustment settings.  Each total is the floating-point sum of
    its contributions in the order they arrive; the totals are identical
    whenever no addition rounds, that is when the contributions are
    non-negative integer-valued doubles that sum to at most [2^53] per
    slug - which is the case with the adjustment disabled, valid recipes
    and a non-negative int quantity, as long as the contributions are
    finite and within that limit. *)
Theorem compute_raw_reordered
    (find_recipe_url : pystr -> option pystr)
    (scrape_recipe scrape_recipe' : pystr -> option Recipe.t)
    (fuel : nat) (name slug : pystr) (q : num) (level : Z) (apply_fail : bool)
    (raw : dict num) :
  recipes_reordered scrape_recipe scrape_recipe' ->
  compute_raw find_recipe_url scrape_recipe fuel name slug q level apply_fail
  = Ok raw ->
  exists raw' leaves leaves',
    compute_raw find_recipe_url scrape_recipe' fuel name slug q level apply_fail
    = Ok raw'
    /\ (forall k, In k (dict_keys raw) <-> In k (dict_keys raw'))
    /\ raw_leaves find_recipe_url scrape_recipe fuel name slug q level apply_fail
       = Ok leaves
    /\ raw_leaves find_recipe_url scrape_recipe' fuel name slug q level apply_fail
       = Ok leaves'
    /\ Permutation leaves leaves'
    /\ (forall k, In k (dict_keys raw) <-> In k (map fst leaves))
    /\ (wholes leaves -> within_limit leaves ->
        forall k, dict_get raw' k = dict_get raw k)
    /\ (apply_fail = false -> valid_recipes scrape_recipe ->
        (exists n, q = Int n /\ 0 <= n) ->
        Forall (fun e => snd e <> Float PosInf) leaves ->
        within_limit leaves ->
        forall k, dict_get raw' k = dict_get raw k).
Proof.
  intros same E.
  destruct (proj1 (compute_raw_leaves find_recipe_url scrape_recipe fuel
                     name slug q level apply_fail) raw E)
    as (leaves & El & Kl & _).
  destruct (raw_leaves_reordered find_recipe_url scrape_recipe scrape_recipe'
              same fuel name slug q level apply_fail leaves El)
    as (leaves' & El' & P).
  destruct (proj2 (compute_raw_leaves find_recipe_url scrape_recipe' fuel
                     name slug q level apply_fail) leaves' El')
    as (raw' & E').
  destruct (proj1 (compute_raw_leaves find_recipe_url scrape_recipe' fuel
                     name slug q level apply_fail) raw' E')
    as (leaves'' & El'' & Kl' & _).
  rewrite El' in El''. injection El'' as <-.
  assert (Exact : wholes leaves -> within_limit leaves ->
                  forall k, dict_get raw' k = dict_get raw k).
  { intros W Hlim.
    exact (exact_totals_reordered find_recipe_url scrape_recipe scrape_recipe'
             same fuel name slug q level apply_fail raw raw' leaves
             E E' El W Hlim). }
  exists raw', leaves, leaves'.
  split; [exact E'|].
  split; [|split; [exact El|split; [exact El'|split; [exact P|
           split; [exact Kl|split; [exact Exact|]]]]]].
  - intros k. rewrite Kl, Kl'. split; apply Permutation_in.
    + now apply Permutation_map.
    + apply Permutation_map. now symmetry.
  - intros -> valid (n & -> & Hn) Hfin Hlim.
    destruct (ideal_leaves find_recipe_url scrape_recipe valid fuel name slug
                (Int n) level leaves Hn (Z.le_refl n) El)
      as [[Hnone ->]|Hw].
    + (* the root has no recipe: both mappings are [{slug: n}] *)
      pose proof (lookup_reordered find_recipe_url scrape_recipe
                    scrape_recipe' same name) as Hl.
      rewrite Hnone in Hl.
      destruct (lookup find_recipe_url scrape_recipe' name) eqn:Hnone';
        [contradiction|].
      destruct fuel as [|fuel]; [discriminate|].
      rewrite compute_raw_unfold, Hnone in E.
      rewrite compute_raw_unfold, Hnone' in E'.
      injection E as <-. injection E' as <-. reflexivity.
    + apply Exact; [|exact Hlim].
      unfold wholes. rewrite Forall_forall in *. intros e He.
      destruct (Hw e He) as [H|H]; [exact H|].
      now specialize (Hfin e He).
Qed.

(** The hypotheses of [compute_raw_reordered] are met by the two orders of
    the frame's ingredients. *)
Lemma compute_raw_reordered_witness :
  let find := Reorder.find_recipe_url in
  let scrape := Reorder.scrape_recipe Reorder.page_order in
  let scrape' := Reorder.scrape_recipe Reorder.other_order in
  let raw := [(str "iron_ingot", Float (of_prim 0x1.a1642c8590b21p+2%float))] in
  exists raw' leaves leaves',
    compute_raw find scrape' 3 (str "Iron Frame") [] (Int 1) 5 true = Ok raw'
    /\ (forall k, In k (dict_keys raw) <-> In k (dict_keys raw'))
    /\ raw_leaves find scrape 3 (str "Iron Frame") [] (Int 1) 5 true = Ok leaves
    /\ raw_leaves find scrape' 3 (str "Iron Frame") [] (Int 1) 5 true = Ok leaves'
    /\ Permutation leaves leaves'
    /\ (forall k, In k (dict_keys raw) <-> In k (map fst leaves))
    /\ (wholes leaves -> within_limit leaves ->
        forall k, dict_get raw' k = dict_get raw k)
    /\ (true = false -> valid_recipes scrape ->
        (exists n, Int 1 = Int n /\ 0 <= n) ->
        Forall (fun e => snd e <> Float PosInf) leaves ->
        within_limit leaves ->
        forall k, dict_get raw' k = dict_get raw k).
Proof.
  cbv zeta.
  apply (compute_raw_reordered Reorder.find_recipe_url
           (Reorder.scrape_recipe Reorder.page_order)
           (Reorder.scrape_recipe Reorder.other_order)
           3 (str "Iron Frame") [] (Int 1) 5 true).
  - exact reorder_stores.
  - vm_compute. reflexivity.
Defined.
